(** * Invisibility cloak: a shallow embedding of [invisibility_cloak.py]

    The development models the per-frame pipeline of the [InvisibilityCloak]
    class (colour segmentation, mask refinement, compositing) and the
    operator commands that touch the camera, the background plate and the
    recording sink.

    NumPy arrays are lists of rows; an 8-bit cell is a [Z] in [0, 255].
    Python exceptions are the [Raise] constructor of [result].  The camera,
    the display, the console and the slider window are fields of the
    [Cloak] record, which every method threads explicitly.

    The element-wise OpenCV calls ([inRange], [bitwise_and], [bitwise_or],
    [bitwise_not], [add], [flip]), erosion, dilation and [contourArea] are
    written out from their documented behaviour (OpenCV 4 Python bindings).
    Colour conversion, contour tracing, polygon rasterisation, blurring,
    averaging and text drawing are the interface [ImageOps]; the refinement
    theorem states what it needs from contours as [ContourLaws]. *)

From Stdlib Require Import String DecimalString ZArith List Bool Lia QArith.
Import ListNotations.
Open Scope string_scope.
Open Scope Z_scope.

(* ================================================================== *)
(** ** Exceptions *)

Inductive PyError : Type :=
| IndexError      (* list index out of range *)
| KeyError        (* missing dictionary key *)
| CvError.        (* cv2.error: size mismatch between operands *)

Inductive result (A : Type) : Type :=
| Ok (a : A)
| Raise (e : PyError).

Arguments Ok {A} a.
Arguments Raise {A} e.

Definition bind {A B} (r : result A) (k : A -> result B) : result B :=
  match r with
  | Ok a => k a
  | Raise e => Raise e
  end.

Notation "x <- r ;; k" := (bind r (fun x => k))
  (at level 61, r at next level, right associativity).

(* ================================================================== *)
(** ** Arrays *)

(** A two-dimensional array, row-major: [img[y][x]]. *)
Definition Image (A : Type) : Type := list (list A).

(** [img.shape[0]] and [img.shape[1]]. *)
Definition height {A} (img : Image A) : nat := length img.
Definition width {A} (img : Image A) : nat := length (hd [] img).
Definition shape {A} (img : Image A) : nat * nat := (height img, width img).

Definition shape_eqb (s t : nat * nat) : bool :=
  Nat.eqb (fst s) (fst t) && Nat.eqb (snd s) (snd t).

Definition in_grid (h w : nat) (y x : Z) : bool :=
  (0 <=? y) && (y <? Z.of_nat h) && (0 <=? x) && (x <? Z.of_nat w).

Definition in_shape {A} (img : Image A) (y x : Z) : bool :=
  in_grid (height img) (width img) y x.

(** Cell [(y, x)]; a position outside the array reads as [border]. *)
Definition get {A} (border : A) (img : Image A) (y x : Z) : A :=
  if in_shape img y x
  then nth (Z.to_nat x) (nth (Z.to_nat y) img []) border
  else border.

(** The [h] x [w] array whose cell [(y, x)] is [f y x]. *)
Definition tabulate {A} (h w : nat) (f : Z -> Z -> A) : Image A :=
  map (fun y => map (fun x => f (Z.of_nat y) (Z.of_nat x)) (seq 0 w)) (seq 0 h).

(** Every row has the length of the first one. *)
Definition rectb {A} (img : Image A) : bool :=
  forallb (fun row => Nat.eqb (length row) (width img)) img.

(** A pixel: three 8-bit channels (B, G, R for a camera frame; H, S, V
    after conversion). *)
Definition Pixel : Type := (Z * Z * Z)%type.
Definition Frame : Type := Image Pixel.
Definition Mask : Type := Image Z.

Definition black : Pixel := (0, 0, 0).

Definition is_u8 (v : Z) : bool := (0 <=? v) && (v <=? 255).

(** A well-formed [uint8] single-channel array. *)
Definition is_mask (m : Mask) : bool :=
  rectb m && forallb (forallb is_u8) m.




(** Mask membership of a cell: OpenCV treats any non-zero value as set. *)
Definition member (v : Z) : bool := negb (v =? 0).

(* ================================================================== *)
(** ** OpenCV element-wise primitives *)

(** [cv2.inRange(src, lowerb, upperb)]: 255 where every channel lies
    between the bounds (inclusive), 0 elsewhere. *)
Definition in_bounds (lowerb upperb p : Pixel) : bool :=
  let '(l0, l1, l2) := lowerb in
  let '(u0, u1, u2) := upperb in
  let '(p0, p1, p2) := p in
  (l0 <=? p0) && (p0 <=? u0) &&
  (l1 <=? p1) && (p1 <=? u1) &&
  (l2 <=? p2) && (p2 <=? u2).

Definition inRange (src : Frame) (lowerb upperb : Pixel) : Mask :=
  tabulate (height src) (width src)
    (fun y x => if in_bounds lowerb upperb (get black src y x) then 255 else 0).

(** [cv2.bitwise_or(a, b)] on single-channel arrays. *)
Definition bitwise_or (a b : Mask) : result Mask :=
  if shape_eqb (shape a) (shape b)
  then Ok (tabulate (height a) (width a)
             (fun y x => Z.lor (get 0 a y x) (get 0 b y x)))
  else Raise CvError.

(** [cv2.bitwise_not(m)] on a [uint8] array. *)
Definition bitwise_not (m : Mask) : Mask :=
  tabulate (height m) (width m)
    (fun y x => Z.land (Z.lnot (get 0 m y x)) 255).

Definition pixel_land (p q : Pixel) : Pixel :=
  let '(p0, p1, p2) := p in
  let '(q0, q1, q2) := q in
  (Z.land p0 q0, Z.land p1 q1, Z.land p2 q2).

(** [cv2.bitwise_and(src1, src2, mask=mask)] with a freshly allocated
    destination: the conjunction where the mask is non-zero, zero
    elsewhere. *)
Definition bitwise_and (src1 src2 : Frame) (mask : Mask) : result Frame :=
  if shape_eqb (shape src1) (shape src2) && shape_eqb (shape src1) (shape mask)
  then Ok (tabulate (height src1) (width src1)
             (fun y x =>
                if member (get 0 mask y x)
                then pixel_land (get black src1 y x) (get black src2 y x)
                else black))
  else Raise CvError.

Definition saturate_u8 (v : Z) : Z := Z.max 0 (Z.min 255 v).

Definition pixel_add (p q : Pixel) : Pixel :=
  let '(p0, p1, p2) := p in
  let '(q0, q1, q2) := q in
  (saturate_u8 (p0 + q0), saturate_u8 (p1 + q1), saturate_u8 (p2 + q2)).

(** [cv2.add(a, b)]: saturating per-channel sum. *)
Definition add (a b : Frame) : result Frame :=
  if shape_eqb (shape a) (shape b)
  then Ok (tabulate (height a) (width a)
             (fun y x => pixel_add (get black a y x) (get black b y x)))
  else Raise CvError.

(** [cv2.flip(frame, 1)]: mirror around the vertical axis. *)
Definition flip1 (frame : Frame) : Frame := map (@rev Pixel) frame.

(* ================================================================== *)
(** ** Morphology *)

(** [np.ones((3, 3), np.uint8)] *)
Definition morph_kernel : Image Z := [[1; 1; 1]; [1; 1; 1]; [1; 1; 1]].

(** Offsets, relative to the centre anchor, of the non-zero kernel cells. *)
Definition kernel_offsets (kernel : Image Z) : list (Z * Z) :=
  let ay := Z.of_nat (height kernel) / 2 in
  let ax := Z.of_nat (width kernel) / 2 in
  flat_map
    (fun i =>
       flat_map
         (fun j =>
            if member (get 0 kernel (Z.of_nat i) (Z.of_nat j))
            then [(Z.of_nat i - ay, Z.of_nat j - ax)]
            else [])
         (seq 0 (width kernel)))
    (seq 0 (height kernel)).

(** One erosion pass: the minimum over the kernel neighbourhood.  With the
    default border the cells outside the array never lower the minimum. *)
Definition erode1 (kernel : Image Z) (src : Mask) : Mask :=
  tabulate (height src) (width src)
    (fun y x =>
       fold_right Z.min 255
         (map (fun o => get 255 src (y + fst o) (x + snd o))
              (kernel_offsets kernel))).

(** One dilation pass: the maximum over the kernel neighbourhood.  With the
    default border the cells outside the array never raise the maximum. *)
Definition dilate1 (kernel : Image Z) (src : Mask) : Mask :=
  tabulate (height src) (width src)
    (fun y x =>
       fold_right Z.max 0
         (map (fun o => get 0 src (y + fst o) (x + snd o))
              (kernel_offsets kernel))).

(** [cv2.erode(src, kernel, iterations=n)] and
    [cv2.dilate(src, kernel, iterations=n)]: [n] passes.  (OpenCV runs one
    pass with the kernel grown [n - 1] times, which computes the same array
    for a full rectangular kernel and the default border.) *)
Definition erode (src : Mask) (kernel : Image Z) (iterations : nat) : Mask :=
  Nat.iter iterations (erode1 kernel) src.

Definition dilate (src : Mask) (kernel : Image Z) (iterations : nat) : Mask :=
  Nat.iter iterations (dilate1 kernel) src.

(** [cv2.morphologyEx(src, cv2.MORPH_OPEN, kernel, iterations=n)]:
    [n] erosions followed by [n] dilations. *)
Definition morphologyEx_OPEN (src : Mask) (kernel : Image Z) (iterations : nat)
  : Mask :=
  dilate (erode src kernel iterations) kernel iterations.

(* ================================================================== *)
(** ** Contours *)

(** A contour is a list of [(x, y)] points. *)
Definition Contour : Type := list (Z * Z).

(** Twice the signed area enclosed by the closed polygon, by the shoelace
    sum [cv2.contourArea] accumulates. *)
Fixpoint shoelace (prev : Z * Z) (pts : Contour) : Z :=
  match pts with
  | [] => 0
  | p :: rest =>
      fst prev * snd p - snd prev * fst p + shoelace p rest
  end.

(** [cv2.contourArea(contour)] *)
Definition contourArea (contour : Contour) : Q :=
  match contour with
  | [] => 0%Q
  | p :: _ => Qmake (Z.abs (shoelace (last contour p) contour)) 2
  end.

(** [x < y] on the rationals, as a boolean. *)
Definition Qlt_bool (x y : Q) : bool := negb (Qle_bool y x).

(** The image-library primitives the pipeline calls without depending on
    how they compute: colour conversion, contour tracing, polygon
    rasterisation, blurring, averaging and text drawing. *)
Class ImageOps : Type := {
  (** [cv2.cvtColor(_, cv2.COLOR_BGR2HSV)] on one pixel *)
  bgr2hsv : Pixel -> Pixel;
  (** [cv2.findContours(_, cv2.RETR_EXTERNAL, cv2.CHAIN_APPROX_SIMPLE)[0]] *)
  findContours : Mask -> list Contour;
  (** whether cell [(y, x)] belongs to the raster of the filled polygon *)
  polygon_covers : Contour -> Z -> Z -> bool;
  (** [cv2.GaussianBlur(_, (5, 5), 0)] *)
  GaussianBlur : Frame -> Frame;
  (** [np.mean(_, axis=0).astype(np.uint8)] *)
  mean_u8 : list Frame -> Frame;
  (** [cv2.getTextSize(text, FONT_HERSHEY_SIMPLEX, scale, thickness)[0]] *)
  getTextSize : string -> Z -> Z -> Z * Z;
  (** [cv2.putText(img, text, org, FONT_HERSHEY_SIMPLEX, scale, color,
      thickness)], returning the array it draws into *)
  putText : Frame -> string -> Z * Z -> Z -> Pixel -> Z -> Frame
}.

(** The facts about contours the refinement proof relies on. *)
Class ContourLaws (ops : ImageOps) : Prop := {
  (** The filled polygon of an external contour never separates two
      set cells that touch (by an edge or a corner): it covers a
      connected region entirely or not at all. *)
  covers_connected :
    forall (m : Mask) (c : Contour) (y x y' x' : Z),
      In c (findContours m) ->
      in_shape m y x = true -> in_shape m y' x' = true ->
      member (get 0 m y x) = true -> member (get 0 m y' x') = true ->
      Z.abs (y' - y) <= 1 -> Z.abs (x' - x) <= 1 ->
      polygon_covers c y x = polygon_covers c y' x';
  (** A mask whose only set cell is [(y, x)] has the one-point contour
      [[(x, y)]] ... *)
  single_point_contour :
    forall (m : Mask) (y x : Z),
      in_shape m y x = true ->
      member (get 0 m y x) = true ->
      (forall y' x', in_shape m y' x' = true ->
                     member (get 0 m y' x') = true -> y' = y /\ x' = x) ->
      In [(x, y)] (findContours m);
  (** ... and filling a one-point polygon paints that point. *)
  single_point_covered :
    forall (y x : Z), polygon_covers [(x, y)] y x = true
}.

(* ================================================================== *)
(** ** Colour presets *)

Record ColorPreset : Type := {
  ranges : list (Pixel * Pixel);
  description : string
}.

(** The [COLOR_PRESETS] dictionary, in insertion order. *)
Definition COLOR_PRESETS : list (string * ColorPreset) :=
  [ ("red",
     {| ranges := [ ((0, 120, 70), (10, 255, 255));
                    ((170, 120, 70), (180, 255, 255)) ];
        description := "Bright red cloth/clothing" |});
    ("blue",
     {| ranges := [ ((100, 150, 50), (130, 255, 255)) ];
        description := "Blue cloth/clothing" |});
    ("green",
     {| ranges := [ ((40, 40, 40), (80, 255, 255)) ];
        description := "Green cloth/clothing" |});
    ("yellow",
     {| ranges := [ ((20, 100, 100), (30, 255, 255)) ];
        description := "Yellow cloth/clothing" |}) ].

(** [d[key]] *)
Fixpoint dict_get {V} (d : list (string * V)) (key : string) : result V :=
  match d with
  | [] => Raise KeyError
  | (k, v) :: rest => if String.eqb k key then Ok v else dict_get rest key
  end.

(** [l[i]] for a non-negative index *)
Definition list_get {V} (l : list V) (i : nat) : result V :=
  match nth_error l i with
  | Some v => Ok v
  | None => Raise IndexError
  end.

(** [self.color_names = list(COLOR_PRESETS.keys())] *)
Definition color_names : list string := map fst COLOR_PRESETS.

(* ================================================================== *)
(** ** The slider window *)

(** The windows on screen, each with its trackbars and their positions. *)
Definition Gui : Type := list (string * list (string * Z)).

Fixpoint assoc {V} (d : list (string * V)) (key : string) : option V :=
  match d with
  | [] => None
  | (k, v) :: rest => if String.eqb k key then Some v else assoc rest key
  end.

Definition namedWindow (g : Gui) (win : string) : Gui :=
  match assoc g win with
  | Some _ => g
  | None => (win, []) :: g
  end.

Definition destroyWindow (g : Gui) (win : string) : Gui :=
  filter (fun e => negb (String.eqb (fst e) win)) g.

Definition createTrackbar (g : Gui) (name win : string) (value : Z) : Gui :=
  map (fun e => if String.eqb (fst e) win
                then (fst e, (name, value) :: snd e)
                else e) g.

(** The position of a trackbar; -1 when the window or the trackbar does not
    exist (what the C interface of HighGUI returns). *)
Definition getTrackbarPos (g : Gui) (name win : string) : Z :=
  match assoc g win with
  | Some bars =>
      match assoc bars name with
      | Some pos => pos
      | None => -1
      end
  | None => -1
  end.

Record HSVTuner : Type := {
  window_name : string;
  is_active : bool;
  is_initialized : bool
}.

(** [HSVTuner.__init__] *)
Definition HSVTuner_init : HSVTuner :=
  {| window_name := "HSV Tuner"; is_active := false; is_initialized := false |}.

(** The [(name, max_val, default)] triples of [_create_window]. *)
Definition trackbars : list (string * Z * Z) :=
  [ ("H_Min", 179, 0); ("S_Min", 255, 120); ("V_Min", 255, 70);
    ("H_Max", 179, 10); ("S_Max", 255, 255); ("V_Max", 255, 255) ].

(** [HSVTuner._create_window] *)
Definition _create_window (t : HSVTuner) (g : Gui) : HSVTuner * Gui :=
  let g := namedWindow g (window_name t) in
  let g :=
    fold_left
      (fun g '(name, max_val, default) =>
         createTrackbar g name (window_name t) default)
      trackbars g in
  ({| window_name := window_name t;
      is_active := is_active t;
      is_initialized := true |}, g).

(** [HSVTuner.toggle] *)
Definition toggle (t : HSVTuner) (g : Gui) : HSVTuner * Gui :=
  let t := {| window_name := window_name t;
              is_active := negb (is_active t);
              is_initialized := is_initialized t |} in
  if is_active t && negb (is_initialized t) then _create_window t g
  else if negb (is_active t) && is_initialized t
       then (t, destroyWindow g (window_name t))
       else (t, g).

(** [HSVTuner.get_hsv_range] *)
Definition get_hsv_range (t : HSVTuner) (g : Gui) : option (Pixel * Pixel) :=
  if negb (is_active t) || negb (is_initialized t) then None
  else
    let h_min := getTrackbarPos g "H_Min" (window_name t) in
    let s_min := getTrackbarPos g "S_Min" (window_name t) in
    let v_min := getTrackbarPos g "V_Min" (window_name t) in
    let h_max := getTrackbarPos g "H_Max" (window_name t) in
    let s_max := getTrackbarPos g "S_Max" (window_name t) in
    let v_max := getTrackbarPos g "V_Max" (window_name t) in
    let lower := (h_min, s_min, v_min) in
    let upper := (h_max, s_max, v_max) in
    Some (lower, upper).

(* ================================================================== *)
(** ** The cloak object and its environment *)

(** A [cv2.VideoWriter]: the file it writes, the frame size [(width,
    height)], whether it opened, and the frames written so far (most recent
    first). *)
Record VideoWriter : Type := {
  vw_filename : string;
  vw_fps : Z;
  vw_size : nat * nat;
  vw_opened : bool;
  vw_frames : list Frame
}.

Record Cloak : Type := {
  (** [self.cap]: the results of the reads still to come; [None] is a
      failed read, and an exhausted source fails forever *)
  cap : list (option Frame);
  (** [self.background] *)
  background : option Frame;
  (** [self.hsv_tuner] *)
  hsv_tuner : HSVTuner;
  (** [self.video_writer] *)
  video_writer : option VideoWriter;
  (** [self.is_recording] *)
  is_recording : bool;
  (** [self.current_color_index] *)
  current_color_index : nat;
  (** the windows of the GUI toolkit *)
  gui : Gui;
  (** the frames handed to [cv2.imshow], most recent first *)
  shown : list Frame;
  (** the lines printed, most recent first *)
  console : list string;
  (** [datetime.now().strftime("%Y%m%d_%H%M%S")] *)
  clock : string;
  (** whether the encoder can open a file of the given name and size *)
  sink_opens : string -> nat * nat -> bool
}.

Definition set_cap (st : Cloak) (c : list (option Frame)) : Cloak :=
  {| cap := c; background := background st; hsv_tuner := hsv_tuner st;
     video_writer := video_writer st; is_recording := is_recording st;
     current_color_index := current_color_index st; gui := gui st;
     shown := shown st; console := console st; clock := clock st;
     sink_opens := sink_opens st |}.

Definition set_background (st : Cloak) (b : option Frame) : Cloak :=
  {| cap := cap st; background := b; hsv_tuner := hsv_tuner st;
     video_writer := video_writer st; is_recording := is_recording st;
     current_color_index := current_color_index st; gui := gui st;
     shown := shown st; console := console st; clock := clock st;
     sink_opens := sink_opens st |}.

Definition set_video_writer (st : Cloak) (w : option VideoWriter) : Cloak :=
  {| cap := cap st; background := background st; hsv_tuner := hsv_tuner st;
     video_writer := w; is_recording := is_recording st;
     current_color_index := current_color_index st; gui := gui st;
     shown := shown st; console := console st; clock := clock st;
     sink_opens := sink_opens st |}.

Definition set_is_recording (st : Cloak) (r : bool) : Cloak :=
  {| cap := cap st; background := background st; hsv_tuner := hsv_tuner st;
     video_writer := video_writer st; is_recording := r;
     current_color_index := current_color_index st; gui := gui st;
     shown := shown st; console := console st; clock := clock st;
     sink_opens := sink_opens st |}.

Definition set_current_color_index (st : Cloak) (i : nat) : Cloak :=
  {| cap := cap st; background := background st; hsv_tuner := hsv_tuner st;
     video_writer := video_writer st; is_recording := is_recording st;
     current_color_index := i; gui := gui st;
     shown := shown st; console := console st; clock := clock st;
     sink_opens := sink_opens st |}.

Definition set_tuner (st : Cloak) (tg : HSVTuner * Gui) : Cloak :=
  {| cap := cap st; background := background st; hsv_tuner := fst tg;
     video_writer := video_writer st; is_recording := is_recording st;
     current_color_index := current_color_index st; gui := snd tg;
     shown := shown st; console := console st; clock := clock st;
     sink_opens := sink_opens st |}.

(** [print(line)] *)
Definition print (st : Cloak) (line : string) : Cloak :=
  {| cap := cap st; background := background st; hsv_tuner := hsv_tuner st;
     video_writer := video_writer st; is_recording := is_recording st;
     current_color_index := current_color_index st; gui := gui st;
     shown := shown st; console := line :: console st; clock := clock st;
     sink_opens := sink_opens st |}.

(** [cv2.imshow("Invisibility Cloak", frame)] *)
Definition imshow (st : Cloak) (frame : Frame) : Cloak :=
  {| cap := cap st; background := background st; hsv_tuner := hsv_tuner st;
     video_writer := video_writer st; is_recording := is_recording st;
     current_color_index := current_color_index st; gui := gui st;
     shown := frame :: shown st; console := console st; clock := clock st;
     sink_opens := sink_opens st |}.

(** [ret, frame = self.cap.read()] *)
Definition cap_read (st : Cloak) : option Frame * Cloak :=
  match cap st with
  | [] => (None, st)
  | r :: rest => (r, set_cap st rest)
  end.

(** [cv2.VideoWriter(filename, fourcc, fps, size)] *)
Definition VideoWriter_new (st : Cloak) (filename : string) (fps : Z)
    (size : nat * nat) : VideoWriter :=
  {| vw_filename := filename; vw_fps := fps; vw_size := size;
     vw_opened := sink_opens st filename size; vw_frames := [] |}.

(** [str(n)] for a natural number *)
Definition str (n : nat) : string := NilEmpty.string_of_uint (Nat.to_uint n).

(** The state [InvisibilityCloak.__init__] leaves once the camera opened. *)
Definition Cloak_init (camera : list (option Frame)) (g : Gui) (now : string)
    (opens : string -> nat * nat -> bool) : Cloak :=
  {| cap := camera; background := None; hsv_tuner := HSVTuner_init;
     video_writer := None; is_recording := false;
     current_color_index := 0%nat; gui := g; shown := []; console := [];
     clock := now; sink_opens := opens |}.

Section Pipeline.

Context {ops : ImageOps}.

(** [cv2.cvtColor(frame, cv2.COLOR_BGR2HSV)] *)
Definition cvtColor_BGR2HSV (frame : Frame) : Frame :=
  tabulate (height frame) (width frame)
    (fun y x => bgr2hsv (get black frame y x)).

(** [cv2.fillPoly(img, pts, color)] on a single-channel array. *)
Definition fillPoly (img : Mask) (pts : list Contour) (color : Z) : Mask :=
  tabulate (height img) (width img)
    (fun y x =>
       if existsb (fun c => polygon_covers c y x) pts
       then color
       else get 0 img y x).

(** Lines 235-245 of [create_color_mask]: one mask per range, combined with
    [bitwise_or] starting from [masks[0]]. *)
Definition mask_from_ranges (hsv_frame : Frame) (rs : list (Pixel * Pixel))
  : result Mask :=
  let masks := map (fun '(lower, upper) => inRange hsv_frame lower upper) rs in
  final_mask <- list_get masks 0 ;;
  fold_left
    (fun final_mask mask => fm <- final_mask ;; bitwise_or fm mask)
    (tl masks) (Ok final_mask).

(** [InvisibilityCloak.create_color_mask] *)
Definition create_color_mask (st : Cloak) (hsv_frame : Frame) : result Mask :=
  let hsv_range :=
    if is_active (hsv_tuner st)
    then get_hsv_range (hsv_tuner st) (gui st)
    else None in
  match hsv_range with
  | Some (lower, upper) => Ok (inRange hsv_frame lower upper)
  | None =>
      current_color <- list_get color_names (current_color_index st) ;;
      color_info <- dict_get COLOR_PRESETS current_color ;;
      mask_from_ranges hsv_frame (ranges color_info)
  end.

(** [InvisibilityCloak.refine_mask] *)
Definition refine_mask (mask : Mask) : Mask :=
  let mask := morphologyEx_OPEN mask morph_kernel 2 in
  let mask := dilate mask morph_kernel 1 in
  let contours := findContours mask in
  fold_left
    (fun mask contour =>
       if Qlt_bool (contourArea contour) (inject_Z 500)
       then fillPoly mask [contour] 0
       else mask)
    contours mask.

(** Lines 420-432 of [apply_invisibility_effect]: the plate where the mask is
    set, the frame where it is not. *)
Definition composite (frame plate : Frame) (mask : Mask) : result Frame :=
  let inv_mask := bitwise_not mask in
  background_part <- bitwise_and plate plate mask ;;
  frame_part <- bitwise_and frame frame inv_mask ;;
  add background_part frame_part.

(** [InvisibilityCloak.apply_invisibility_effect] *)
Definition apply_invisibility_effect (st : Cloak) (frame : Frame)
  : result Frame :=
  match background st with
  | None => Ok frame
  | Some plate =>
      let hsv := cvtColor_BGR2HSV frame in
      mask <- create_color_mask st hsv ;;
      let mask := refine_mask mask in
      composite frame plate mask
  end.

(** [InvisibilityCloak.cycle_color] *)
Definition cycle_color (st : Cloak) : result Cloak :=
  let st :=
    set_current_color_index st
      ((current_color_index st + 1) mod length color_names)%nat in
  current_color <- list_get color_names (current_color_index st) ;;
  info <- dict_get COLOR_PRESETS current_color ;;
  Ok (print st ("🎨 Switched to: " ++ current_color ++ " ("
                  ++ description info ++ ")")).

(** One pass of the countdown loop of [capture_background]. *)
Definition countdown_step (st : Cloak) (i : nat) : Cloak :=
  let '(ret, st) := cap_read st in
  match ret with
  | None => st
  | Some frame =>
      let frame := flip1 frame in
      let countdown := (3 - i / 20)%nat in
      let frame :=
        if (0 <? countdown)%nat then
          let font_scale := 3 in
          let thickness := 5 in
          let text := str countdown in
          let text_size := getTextSize text font_scale thickness in
          let text_x := (Z.of_nat (width frame) - fst text_size) / 2 in
          let text_y := (Z.of_nat (height frame) + snd text_size) / 2 in
          let frame :=
            putText frame text (text_x, text_y) font_scale (0, 255, 255)
                    thickness in
          putText frame "Step out of frame!" (50, 50) 1 (0, 255, 255) 2
        else frame in
      imshow st frame
  end.

(** One pass of the capture loop of [capture_background]: the state and the
    list [frames] collected so far.  The sample is copied into [frames]
    (as [float32]) before the progress text is drawn on the frame. *)
Definition capture_step (num_frames : nat) (acc : Cloak * list Frame)
    (i : nat) : Cloak * list Frame :=
  let '(st, frames) := acc in
  let '(ret, st) := cap_read st in
  match ret with
  | None => (st, frames)
  | Some frame =>
      let frame := flip1 frame in
      let frames := (frames ++ [frame])%list in
      let progress :=
        "Capturing: " ++ str (i + 1) ++ "/" ++ str num_frames in
      let frame := putText frame progress (50, 50) 1 (0, 255, 0) 2 in
      (imshow st frame, frames)
  end.

(** [InvisibilityCloak.capture_background] *)
Definition capture_background (st : Cloak) (num_frames : nat)
  : Cloak * bool :=
  let st := print st "🟡 Capturing background... Please step out of the frame!" in
  let st := print st "   This will take about 3 seconds..." in
  let countdown_frames := 60%nat in
  let st := fold_left countdown_step (seq 0 countdown_frames) st in
  let '(st, frames) :=
    fold_left (capture_step num_frames) (seq 0 num_frames) (st, []) in
  match frames with
  | _ :: _ =>
      let st := set_background st (Some (mean_u8 frames)) in
      let st :=
        set_background st (option_map GaussianBlur (background st)) in
      (print st "✅ Background captured successfully!", true)
  | [] => (print st "❌ Failed to capture background", false)
  end.

(** [InvisibilityCloak.toggle_recording] *)
Definition toggle_recording (st : Cloak) : Cloak :=
  if negb (is_recording st) then
    let timestamp := clock st in
    let filename := "invisibility_cloak_" ++ timestamp ++ ".mp4" in
    let '(ret, st) := cap_read st in
    match ret with
    | None => print st "❌ Cannot start recording - no frame available"
    | Some frame =>
        let '(height, width) := shape frame in
        let st :=
          set_video_writer st
            (Some (VideoWriter_new st filename 30 (width, height))) in
        if match video_writer st with
           | Some w => vw_opened w
           | None => false
           end
        then
          let st := set_is_recording st true in
          print st ("⏺️  Recording started: " ++ filename)
        else
          let st := print st "❌ Failed to initialize video writer" in
          set_video_writer st None
    end
  else
    let st := set_is_recording st false in
    let st :=
      match video_writer st with
      | Some _ => set_video_writer st None
      | None => st
      end in
    print st "⏹️  Recording stopped".

End Pipeline.

(* ================================================================== *)
(** ** The FPS counter *)

(** Python floats, as far as the counter and the HUD use them. *)
Class FloatOps : Type := {
  pyfloat : Type;
  (** [0.0] and [1.0] *)
  f_zero : pyfloat;
  f_one : pyfloat;
  (** [x - y] and [x / y] *)
  f_sub : pyfloat -> pyfloat -> pyfloat;
  f_div : pyfloat -> pyfloat -> pyfloat;
  (** [sum(xs)] *)
  f_sum : list pyfloat -> pyfloat;
  (** [x / n] for an integer [n] *)
  f_div_int : pyfloat -> nat -> pyfloat;
  (** [x > 0] *)
  f_pos : pyfloat -> bool;
  (** [f"{x:.1f}"] *)
  f_format1 : pyfloat -> string
}.

(** [deque(maxlen=n).append(x)]: once full, the oldest entry leaves. *)
Definition deque_append {A} (maxlen : nat) (d : list A) (x : A) : list A :=
  let d := (d ++ [x])%list in
  skipn (length d - maxlen) d.

Section FPS.

Context {fl : FloatOps}.

Record FPSCounter : Type := {
  buffer_size : nat;
  frame_times : list pyfloat;
  last_time : option pyfloat
}.

(** [FPSCounter.__init__] *)
Definition FPSCounter_init (buffer_size : nat) : FPSCounter :=
  {| buffer_size := buffer_size; frame_times := []; last_time := None |}.

(** [FPSCounter.update]; [current_time] is the reading of
    [time.perf_counter()]. *)
Definition update (c : FPSCounter) (current_time : pyfloat) : FPSCounter :=
  let times :=
    match last_time c with
    | Some last =>
        let frame_time := f_sub current_time last in
        deque_append (buffer_size c) (frame_times c) frame_time
    | None => frame_times c
    end in
  {| buffer_size := buffer_size c;
     frame_times := times;
     last_time := Some current_time |}.

(** [FPSCounter.get_fps] *)
Definition get_fps (c : FPSCounter) : pyfloat :=
  match frame_times c with
  | [] => f_zero
  | _ :: _ =>
      let avg_frame_time :=
        f_div_int (f_sum (frame_times c)) (length (frame_times c)) in
      if f_pos avg_frame_time then f_div f_one avg_frame_time else f_zero
  end.

End FPS.

(* ================================================================== *)
(** ** Saving the tuner settings *)

Unset Elimination Schemes.

(** A JSON document. *)
Inductive Json : Type :=
| JInt (z : Z)
| JStr (s : string)
| JList (l : list Json)
| JDict (d : list (string * Json)).

Set Elimination Schemes.

(** What a file holds: a JSON document, or what is left of one when the
    write did not complete ([open(filename, 'w')] has emptied the file and
    [json.dump] has written some prefix of the text). *)
Inductive Content : Type :=
| Document (doc : Json)
| Partial.

(** The files on disk, each with what it holds, and for each name the error,
    if any, that opening it for writing raises, and the error, if any, that
    writing the document or closing the file raises once it is open. *)
Record Disk : Type := {
  files : list (string * Content);
  open_error : string -> option string;
  dump_error : string -> option string
}.

(** The file [filename] is created or replaced and holds [c]. *)
Definition write_file (d : Disk) (filename : string) (c : Content) : Disk :=
  {| files :=
       (filename, c)
         :: filter (fun e => negb (String.eqb (fst e) filename)) (files d);
     open_error := open_error d;
     dump_error := dump_error d |}.

(** Whether the window [win] is on screen with the six sliders of the
    tuner. *)
Definition sliders_on_screen (g : Gui) (win : string) : bool :=
  match assoc g win with
  | Some bars =>
      forallb
        (fun '(name, max_val, default) =>
           match assoc bars name with Some _ => true | None => false end)
        trackbars
  | None => false
  end.

(** [np.array([a, b, c]).tolist()] *)
Definition tolist (p : Pixel) : Json :=
  let '(a, b, c) := p in JList [JInt a; JInt b; JInt c].

(** [HSVTuner.save_settings]: the result, the disk and the lines printed;
    [now] is [datetime.now().isoformat()].  The [try] block covers the
    [open], the [json.dump] and the close of the [with] block: when the
    [open] raises the disk is as before, when the write or the close raises
    the file has already been emptied and is left incomplete. *)
Definition save_settings (t : HSVTuner) (g : Gui) (now : string) (d : Disk)
    (filename : string) : bool * Disk * list string :=
  match get_hsv_range t g with
  | None => (false, d, [])
  | Some (lower, upper) =>
      let settings :=
        JDict
          [ ("custom",
             JDict
               [ ("ranges", JList [JList [tolist lower; tolist upper]]);
                 ("description", JStr "Custom HSV range");
                 ("timestamp", JStr now) ]) ] in
      match open_error d filename with
      | Some e => (false, d, ["❌ Failed to save settings: " ++ e])
      | None =>
          match dump_error d filename with
          | Some e =>
              (false, write_file d filename Partial,
               ["❌ Failed to save settings: " ++ e])
          | None =>
              (true, write_file d filename (Document settings),
               ["✅ HSV settings saved to " ++ filename])
          end
      end
  end.

(* ================================================================== *)
(** ** The heads-up display *)

(** [needle in hay] on strings *)
Fixpoint str_in (needle hay : string) : bool :=
  String.prefix needle hay ||
  match hay with
  | EmptyString => false
  | String _ rest => str_in needle rest
  end.

(** [s.upper()] on ASCII text *)
Definition upper_char (c : Ascii.ascii) : Ascii.ascii :=
  let n := Ascii.nat_of_ascii c in
  if (97 <=? n)%nat && (n <=? 122)%nat
  then Ascii.ascii_of_nat (n - 32)
  else c.

Fixpoint upper (s : string) : string :=
  match s with
  | EmptyString => EmptyString
  | String c rest => String (upper_char c) (upper rest)
  end.

(** [list(enumerate(l))] *)
Definition enumerate {A} (l : list A) : list (Z * A) :=
  combine (map Z.of_nat (seq 0 (length l))) l.

(** The colour [draw_hud] gives a status line. *)
Definition status_color (text : string) : Pixel :=
  let color :=
    if str_in "SET" text || str_in "ON" text
    then (0, 255, 0)
    else (100, 100, 100) in
  if str_in "Recording: ON" text then (0, 0, 255) else color.

(** The list [controls] of [draw_hud]. *)
Definition controls : list string :=
  [ "Controls:"; "B - Capture background"; "R - Record video";
    "C - Change color"; "T - HSV tuner"; "S - Save HSV"; "SPACE - Reset";
    "Q/ESC - Quit" ].

(** What the [except Exception] of [run] can catch: an error of the
    pipeline, the [ValueError] of NumPy for samples that do not stack, and
    the [cv2.error] of HighGUI for a window or a slider that is not there. *)
Inductive Caught : Type :=
| Pipeline (e : PyError)
| ValueError
| HighGuiError.

(** Text drawing with a fractional font scale, the text of an exception,
    and the HighGUI back end.  Back ends differ in what they do when asked
    about a window or a slider that does not exist: some raise [cv2.error],
    the others answer -1 and destroy nothing. *)
Class HudOps : Type := {
  (** [cv2.putText(img, text, org, FONT_HERSHEY_SIMPLEX, scale, color,
      thickness)] *)
  putText_scaled : Frame -> string -> Z * Z -> Q -> Pixel -> Z -> Frame;
  (** [str(e)] *)
  error_text : Caught -> string;
  (** whether the back end raises for a missing window or slider *)
  missing_window_raises : bool
}.

Section Application.

Context {ops : ImageOps} {fl : FloatOps} {hud : HudOps}.

(** The list [texts] of [draw_hud]. *)
Definition hud_texts (st : Cloak) (fps_counter : FPSCounter)
  : result (list string) :=
  let fps := get_fps fps_counter in
  current_color <- list_get color_names (current_color_index st) ;;
  Ok [ "FPS: " ++ f_format1 fps;
       "Background: "
         ++ (match background st with Some _ => "SET" | None => "NOT SET" end);
       "Recording: " ++ (if is_recording st then "ON" else "OFF");
       "Color: " ++ upper current_color;
       "HSV Tuner: " ++ (if is_active (hsv_tuner st) then "ON" else "OFF") ].

(** [InvisibilityCloak.draw_hud], returning the frame it draws on. *)
Definition draw_hud (st : Cloak) (fps_counter : FPSCounter) (frame : Frame)
  : result Frame :=
  let height := Z.of_nat (height frame) in
  texts <- hud_texts st fps_counter ;;
  let frame :=
    fold_left
      (fun frame '(i, text) =>
         putText_scaled frame text (10, 30 + i * 25) (7 # 10)
                        (status_color text) 2)
      (enumerate texts) frame in
  let frame :=
    fold_left
      (fun frame '(i, control) =>
         let y_pos := height - 200 + i * 20 in
         let color := if i =? 0 then (255, 255, 255) else (200, 200, 200) in
         let font_scale := if i =? 0 then (6 # 10) else (5 # 10) in
         putText_scaled frame control (10, y_pos) font_scale color 1)
      (enumerate controls) frame in
  Ok frame.

(* ================================================================== *)
(** ** The main loop *)

(** The cloak together with its FPS counter and the disk. *)
Record App : Type := {
  cloak : Cloak;
  fps_counter : FPSCounter;
  disk : Disk
}.

Definition with_cloak (app : App) (st : Cloak) : App :=
  {| cloak := st; fps_counter := fps_counter app; disk := disk app |}.

(** What the environment answers during one pass of the loop: the reading
    of [time.perf_counter()], the value of [cv2.waitKey(1)] and the text of
    [datetime.now().isoformat()]. *)
Record TickInput : Type := {
  perf_counter : pyfloat;
  waitKey : Z;
  now_iso : string
}.

(** How one pass ends: the loop goes on, [break], or an exception. *)
Inductive Outcome : Type :=
| Next (app : App)
| Stop (app : App)
| Crash (app : App) (e : Caught).

(** [writer.write(frame)]: the frame is handed to the encoder. *)
Definition vw_write (w : VideoWriter) (frame : Frame) : VideoWriter :=
  {| vw_filename := vw_filename w; vw_fps := vw_fps w; vw_size := vw_size w;
     vw_opened := vw_opened w; vw_frames := frame :: vw_frames w |}.

(** [writer.release()] *)
Definition vw_release (w : VideoWriter) : VideoWriter :=
  {| vw_filename := vw_filename w; vw_fps := vw_fps w; vw_size := vw_size w;
     vw_opened := false; vw_frames := vw_frames w |}.

(** Lines 469-470 of [run]. *)
Definition record_frame (st : Cloak) (processed_frame : Frame) : Cloak :=
  if is_recording st then
    match video_writer st with
    | Some w => set_video_writer st (Some (vw_write w processed_frame))
    | None => st
    end
  else st.

(** [key in codes] *)
Definition key_in (key : Z) (codes : list Z) : bool :=
  existsb (Z.eqb key) codes.

(** Whether [get_hsv_range] raises: it gets past its guard and asks for the
    position of a slider that is not on screen, on a back end that raises
    for it. *)
Definition get_hsv_range_raises (t : HSVTuner) (g : Gui) : bool :=
  is_active t && is_initialized t
  && negb (sliders_on_screen g (window_name t))
  && missing_window_raises.

(** Whether [toggle] raises: it switches an initialized tuner off and
    [cv2.destroyWindow] finds no window of that name, on a back end that
    raises for it. *)
Definition toggle_raises (t : HSVTuner) (g : Gui) : bool :=
  is_active t && is_initialized t
  && match assoc g (window_name t) with Some _ => false | None => true end
  && missing_window_raises.

(** The two loops of [capture_background] (lines 271-309): the state they
    leave and the samples collected. *)
Definition capture_frames (st : Cloak) (num_frames : nat)
  : Cloak * list Frame :=
  let st := print st "🟡 Capturing background... Please step out of the frame!" in
  let st := print st "   This will take about 3 seconds..." in
  let countdown_frames := 60%nat in
  let st := fold_left countdown_step (seq 0 countdown_frames) st in
  fold_left (capture_step num_frames) (seq 0 num_frames) (st, []).

(** Whether [np.mean(frames, axis=0)] can stack the samples: they all have
    one shape.  For samples of different shapes NumPy (1.24 and later)
    raises [ValueError]. *)
Definition stackable (frames : list Frame) : bool :=
  match frames with
  | [] => true
  | f :: rest => forallb (fun g => shape_eqb (shape g) (shape f)) rest
  end.

(** Lines 475-489 of [run]: the dispatch on the key.  A handler can raise
    inside the [try] of [run]: [capture_background] when the samples do not
    stack, after both loops and before the plate is assigned; [toggle] when
    the window to destroy is not there, after the flag was flipped;
    [save_settings] when [get_hsv_range], called before its [try], reads a
    slider that is not there; [cycle_color] for an index outside the
    presets. *)
Definition handle_key (input : TickInput) (key : Z) (app : App) : Outcome :=
  let st := cloak app in
  if key_in key [113; 81; 27] then Stop app
  else if key_in key [98; 66] then
    let '(st', frames) := capture_frames st 30 in
    if stackable frames
    then Next (with_cloak app (fst (capture_background st 30)))
    else Crash (with_cloak app st') ValueError
  else if key_in key [114; 82] then
    Next (with_cloak app (toggle_recording st))
  else if key_in key [99; 67] then
    match cycle_color st with
    | Ok st => Next (with_cloak app st)
    | Raise e =>
        Crash
          (with_cloak app
             (set_current_color_index st
                ((current_color_index st + 1) mod length color_names)%nat))
          (Pipeline e)
    end
  else if key_in key [116; 84] then
    if toggle_raises (hsv_tuner st) (gui st) then
      Crash
        (with_cloak app
           (set_tuner st
              ({| window_name := window_name (hsv_tuner st);
                  is_active := negb (is_active (hsv_tuner st));
                  is_initialized := is_initialized (hsv_tuner st) |},
               gui st)))
        HighGuiError
    else Next (with_cloak app (set_tuner st (toggle (hsv_tuner st) (gui st))))
  else if key_in key [115; 83] then
    if get_hsv_range_raises (hsv_tuner st) (gui st) then Crash app HighGuiError
    else
      let '(_, d, lines) :=
        save_settings (hsv_tuner st) (gui st) (now_iso input) (disk app)
                      "custom_hsv.json" in
      Next {| cloak := fold_left print lines st;
              fps_counter := fps_counter app;
              disk := d |}
  else if key =? 32 then
    Next (with_cloak app
            (print (set_background st None) "🔄 Background reset"))
  else Next app.

(** The body of the [while True] loop of [run].  With a plate held the
    effect asks an active tuner for its range, which can raise before any
    array is combined. *)
Definition loop_body (input : TickInput) (app : App) : Outcome :=
  let '(ret, st) := cap_read (cloak app) in
  match ret with
  | None =>
      Stop (with_cloak app (print st "⚠️  Failed to read frame from camera"))
  | Some frame =>
      let frame := flip1 frame in
      let app :=
        {| cloak := st;
           fps_counter := update (fps_counter app) (perf_counter input);
           disk := disk app |} in
      if match background st with Some _ => true | None => false end
         && get_hsv_range_raises (hsv_tuner st) (gui st)
      then Crash app HighGuiError
      else
        match apply_invisibility_effect st frame with
        | Raise e => Crash app (Pipeline e)
        | Ok processed_frame =>
            match draw_hud st (fps_counter app) processed_frame with
            | Raise e => Crash app (Pipeline e)
            | Ok processed_frame =>
                let st := imshow st processed_frame in
                let st := record_frame st processed_frame in
                let key := Z.land (waitKey input) 255 in
                handle_key input key (with_cloak app st)
            end
        end
  end.

(** Whether [run] has returned, or the inputs given so far left the loop
    running. *)
Inductive RunEnd : Type := Returned | Running.

(** The [try] block of [run] over the answers of the environment, one per
    pass, with the [except Exception] handler. *)
Fixpoint main_loop (inputs : list TickInput) (app : App) : App * RunEnd :=
  match inputs with
  | [] => (app, Running)
  | input :: rest =>
      match loop_body input app with
      | Next app => main_loop rest app
      | Stop app => (app, Returned)
      | Crash app e =>
          (with_cloak app
             (print (cloak app) ("❌ An error occurred: " ++ error_text e)),
           Returned)
      end
  end.

(** [InvisibilityCloak.cleanup] *)
Definition cleanup (st : Cloak) : Cloak :=
  let st := print st "🧹 Cleaning up..." in
  let st :=
    if is_recording st then
      match video_writer st with
      | Some w => set_video_writer st (Some (vw_release w))
      | None => st
      end
    else st in
  let st := set_cap st [] in
  let st := set_tuner st (hsv_tuner st, []) in
  print st "✅ Cleanup complete".

(** The lines [run] prints before the loop. *)
Definition banner : list string :=
  [ "🪄 Harry Potter Invisibility Cloak";
    "========================================";
    "Instructions:";
    "1. Press 'B' to capture background (step out of frame first)";
    "2. Put on a red cloth/shirt";
    "3. Watch the magic happen!";
    "4. Use other keys for more features";
    "========================================";
    "" ].

(** [InvisibilityCloak.run] *)
Definition run (inputs : list TickInput) (app : App) : App * RunEnd :=
  let app := with_cloak app (fold_left print banner (cloak app)) in
  let '(app, e) := main_loop inputs app in
  match e with
  | Returned => (with_cloak app (cleanup (cloak app)), Returned)
  | Running => (app, Running)
  end.

End Application.

(* ================================================================== *)
(** ** Vocabulary of the statements *)

(** The cell value of a boolean: 255 for a member, 0 otherwise. *)
Definition mark (b : bool) : Z := if b then 255 else 0.

(** The specification of segmentation: a pixel belongs to some range. *)
Definition any_range (rs : list (Pixel * Pixel)) (p : Pixel) : bool :=
  existsb (fun r => in_bounds (fst r) (snd r) p) rs.

(** The ranges of the preset at a given index. *)
Definition preset_ranges (i : nat) : list (Pixel * Pixel) :=
  nth i (map (fun e => ranges (snd e)) COLOR_PRESETS) [].

Definition pixel_le (p q : Pixel) : Prop :=
  let '(p0, p1, p2) := p in
  let '(q0, q1, q2) := q in
  p0 <= q0 /\ p1 <= q1 /\ p2 <= q2.

(** [r'] is [r] with lower bounds decreased or upper bounds increased. *)
Definition wider (r r' : Pixel * Pixel) : Prop :=
  pixel_le (fst r') (fst r) /\ pixel_le (snd r) (snd r').

(** The mask that reaches the contour filter: opened twice, dilated once. *)
Definition opened_dilated (mask : Mask) : Mask :=
  dilate (morphologyEx_OPEN mask morph_kernel 2) morph_kernel 1.

(** The test of the contour loop: the area is below 500. *)
Definition small (c : Contour) : bool :=
  Qlt_bool (contourArea c) (inject_Z 500).

(** The fields of the session the operator controls: plate, tuner, recording
    sink and flag, preset index. *)
Definition same_controls (a b : Cloak) : Prop :=
  background a = background b /\
  hsv_tuner a = hsv_tuner b /\
  video_writer a = video_writer b /\
  is_recording a = is_recording b /\
  current_color_index a = current_color_index b.

(** A read that returned [ret = False]. *)
Definition failed_read (r : option Frame) : bool :=
  match r with
  | None => true
  | Some _ => false
  end.

(* ================================================================== *)
(** ** A small instance of the primitives

    Colour conversion, blurring and text drawing leave the array as it is,
    averaging returns the first sample, and contour tracing reports only the
    one-cell specks: the set cells none of whose eight neighbours is set.
    The instance is used to run the model on concrete arrays. *)

(** Whether [(y, x)] is set and none of its neighbours is. *)
Definition isolatedb (m : Mask) (y x : Z) : bool :=
  member (get 0 m y x) &&
  forallb
    (fun o =>
       ((fst o =? 0) && (snd o =? 0)) ||
       negb (member (get 0 m (y + fst o) (x + snd o))))
    (kernel_offsets morph_kernel).

(** One one-point contour per speck, in scan order. *)
Definition speck_contours (m : Mask) : list Contour :=
  flat_map
    (fun y =>
       flat_map
         (fun x =>
            if isolatedb m (Z.of_nat y) (Z.of_nat x)
            then [[(Z.of_nat x, Z.of_nat y)]]
            else [])
         (seq 0 (width m)))
    (seq 0 (height m)).

(** The raster of a one-point polygon is that point. *)
Definition point_covers (c : Contour) (y x : Z) : bool :=
  match c with
  | [(cx, cy)] => (cx =? x) && (cy =? y)
  | _ => false
  end.

Definition speck_ops : ImageOps :=
  {| bgr2hsv := fun p => p;
     findContours := speck_contours;
     polygon_covers := point_covers;
     GaussianBlur := fun f => f;
     mean_u8 := fun fs => hd [] fs;
     getTextSize := fun _ _ _ => (0, 0);
     putText := fun f _ _ _ _ _ => f |}.

(** Sample arrays. *)
Definition speck_mask : Mask :=
  [[0; 0; 0]; [0; 255; 0]; [0; 0; 0]].

Definition block_mask : Mask :=
  [[255; 255]; [255; 255]].

Definition sample_frame : Frame :=
  [[(10, 20, 30); (40, 50, 60)]; (70, 80, 90) :: [(100, 110, 120)]].

Definition sample_plate : Frame :=
  [[(1, 2, 3); (4, 5, 6)]; (7, 8, 9) :: [(11, 12, 13)]].

Definition sample_hsv : Frame :=
  [[(5, 200, 200); (100, 200, 200)]; (175, 130, 80) :: [(90, 10, 10)]].

Definition sample_select : Mask :=
  [[255; 0]; [0; 255]].

Definition no_sink (filename : string) (size : nat * nat) : bool := false.
Definition any_sink (filename : string) (size : nat * nat) : bool := true.

(** A freshly started session in front of a camera that delivers the given
    reads. *)
Definition sample_session (camera : list (option Frame)) : Cloak :=
  Cloak_init camera [] "20240101_120000" any_sink.

(** The red preset applied to [sample_hsv]. *)
Definition sample_red_mask : Mask :=
  [[255; 0]; [255; 0]].

(** The red preset with the hue bounds widened by five on each side. *)
Definition wide_red : list (Pixel * Pixel) :=
  [ ((0, 120, 70), (15, 255, 255)); ((165, 120, 70), (180, 255, 255)) ].

(** A camera that delivers sixty frames and then fails thirty times. *)
Definition failing_camera : list (option Frame) :=
  (repeat (Some sample_frame) 60 ++ repeat None 30)%list.

(** A session that holds a plate. *)
Definition plated_session (camera : list (option Frame)) : Cloak :=
  set_background (sample_session camera) (Some sample_plate).

(** A session whose tuner was toggled on once. *)
Definition tuning_session : Cloak :=
  set_tuner (sample_session []) (toggle HSVTuner_init []).

(** A session whose encoder refuses every file. *)
Definition sinkless_session (camera : list (option Frame)) : Cloak :=
  Cloak_init camera [] "20240101_120000" no_sink.

(** Rationals in the place of floats, and a HUD that draws nothing on a
    back end that raises for a missing window. *)
Definition sample_float : FloatOps :=
  {| pyfloat := Q;
     f_zero := 0%Q;
     f_one := 1%Q;
     f_sub := Qminus;
     f_div := Qdiv;
     f_sum := fun xs => fold_right Qplus 0%Q xs;
     f_div_int := fun x n => Qdiv x (inject_Z (Z.of_nat n));
     f_pos := fun x => Qlt_bool 0%Q x;
     f_format1 := fun _ => "0.0" |}.

Definition sample_hud : HudOps :=
  {| putText_scaled := fun f _ _ _ _ _ => f;
     error_text := fun _ => "error";
     missing_window_raises := true |}.

(** A disk without files that accepts every write. *)
Definition empty_disk : Disk :=
  {| files := []; open_error := fun _ => None; dump_error := fun _ => None |}.

(** A disk that holds earlier settings and has no room left: files open,
    writes fail. *)
Definition full_disk : Disk :=
  {| files := [("custom_hsv.json", Document (JDict []))];
     open_error := fun _ => None;
     dump_error := fun _ => Some "[Errno 28] No space left on device" |}.

(** An application around a session. *)
Definition sample_app (st : Cloak) : @App sample_float :=
  {| cloak := st;
     fps_counter := @FPSCounter_init sample_float 30;
     disk := empty_disk |}.

(** A pass of the loop during which no key is pressed. *)
Definition idle_input : @TickInput sample_float :=
  @Build_TickInput sample_float (1%Q : @pyfloat sample_float) (-1)
                   "2024-01-01T12:00:00".

(** A session holding a plate of one pixel in front of a camera that
    delivers a 2 x 2 frame. *)
Definition mismatched_session : Cloak :=
  set_background (sample_session [Some sample_frame]) (Some [[(1, 2, 3)]]).

(** A session holding a plate in front of a camera that, after the
    countdown, delivers a 2 x 2 frame and then a frame of one pixel. *)
Definition resizing_session : Cloak :=
  plated_session
    (repeat None 60 ++ [Some sample_frame; Some [[(1, 2, 3)]]])%list.

(** A session whose tuner is switched on after its window was destroyed. *)
Definition windowless_session : Cloak :=
  set_tuner (sample_session [])
    ({| window_name := "HSV Tuner"; is_active := true;
        is_initialized := true |}, []).

(* ================================================================== *)
(** * Properties *)

(** ** Arrays built cell by cell *)

Lemma height_tabulate {A} (h w : nat) (f : Z -> Z -> A) :
  height (tabulate h w f) = h.
Proof.
  unfold height, tabulate. now rewrite length_map, length_seq.
Qed.

Lemma width_tabulate {A} (h w : nat) (f : Z -> Z -> A) :
  width (tabulate h w f) = match h with O => O | S _ => w end.
Proof.
  unfold width, tabulate. destruct h as [|h]; [reflexivity|].
  cbn [seq map hd]. now rewrite length_map, length_seq.
Qed.

Lemma in_grid_spec (h w : nat) (y x : Z) :
  in_grid h w y x = true <->
  0 <= y < Z.of_nat h /\ 0 <= x < Z.of_nat w.
Proof.
  unfold in_grid. rewrite !andb_true_iff, !Z.leb_le, !Z.ltb_lt. lia.
Qed.

Lemma in_shape_tabulate {A} (h w : nat) (f : Z -> Z -> A) (y x : Z) :
  in_shape (tabulate h w f) y x = in_grid h w y x.
Proof.
  unfold in_shape. rewrite height_tabulate, width_tabulate.
  destruct h as [|h]; [|reflexivity].
  unfold in_grid. destruct (0 <=? y) eqn:Hy; [|reflexivity].
  cbn. destruct (y <? 0) eqn:Hy'; [|reflexivity].
  apply Z.leb_le in Hy. apply Z.ltb_lt in Hy'. lia.
Qed.

Lemma shape_tabulate_like {A B} (m : Image A) (f : Z -> Z -> B) :
  shape (tabulate (height m) (width m) f) = shape m.
Proof.
  unfold shape. rewrite height_tabulate, width_tabulate.
  destruct m as [|r m]; reflexivity.
Qed.

Lemma get_tabulate {A} (b : A) (h w : nat) (f : Z -> Z -> A) (y x : Z) :
  get b (tabulate h w f) y x = if in_grid h w y x then f y x else b.
Proof.
  unfold get. rewrite in_shape_tabulate.
  destruct (in_grid h w y x) eqn:Hin; [|reflexivity].
  apply in_grid_spec in Hin. destruct Hin as [Hy Hx].
  unfold tabulate.
  rewrite nth_indep with (d' := map (fun x0 => f (Z.of_nat 0) (Z.of_nat x0)) (seq 0 w))
    by (rewrite length_map, length_seq; lia).
  rewrite (map_nth (fun y0 => map (fun x0 => f (Z.of_nat y0) (Z.of_nat x0)) (seq 0 w))).
  rewrite seq_nth by lia.
  rewrite nth_indep with (d' := f (Z.of_nat (0 + Z.to_nat y)) (Z.of_nat 0))
    by (rewrite length_map, length_seq; lia).
  rewrite (map_nth (fun x0 => f (Z.of_nat (0 + Z.to_nat y)) (Z.of_nat x0))).
  rewrite seq_nth by lia.
  cbn [Nat.add]. now rewrite !Z2Nat.id by lia.
Qed.

Lemma in_shape_like {A B} (m : Image A) (f : Z -> Z -> B) (y x : Z) :
  in_shape (tabulate (height m) (width m) f) y x = in_shape m y x.
Proof. now rewrite in_shape_tabulate. Qed.


Lemma rectb_tabulate {A} (h w : nat) (f : Z -> Z -> A) :
  rectb (tabulate h w f) = true.
Proof.
  unfold rectb. rewrite width_tabulate.
  apply forallb_forall. intros row Hrow.
  unfold tabulate in Hrow. apply in_map_iff in Hrow.
  destruct Hrow as [y [<- Hy]].
  rewrite length_map, length_seq.
  destruct h as [|h]; [inversion Hy|]. apply Nat.eqb_refl.
Qed.


(** In a rectangular array the border value is read only outside. *)
Lemma get_border_indep {A} (b b' : A) (m : Image A) (y x : Z) :
  rectb m = true -> in_shape m y x = true -> get b m y x = get b' m y x.
Proof.
  intros Hr Hin. unfold get. rewrite Hin.
  apply in_grid_spec in Hin. destruct Hin as [Hy Hx].
  unfold height in Hy.
  assert (Hrow : In (nth (Z.to_nat y) m []) m) by (apply nth_In; lia).
  unfold rectb in Hr. rewrite forallb_forall in Hr.
  specialize (Hr _ Hrow). apply Nat.eqb_eq in Hr.
  apply nth_indep. lia.
Qed.

(** ** Segmentation *)

Lemma get_inRange (src : Frame) (lo hi : Pixel) (y x : Z) :
  get 0 (inRange src lo hi) y x =
  mark (in_shape src y x && in_bounds lo hi (get black src y x)).
Proof.
  unfold inRange. rewrite get_tabulate. fold (in_shape src y x).
  destruct (in_shape src y x); [|reflexivity].
  now destruct (in_bounds lo hi (get black src y x)).
Qed.

Lemma shape_inRange (src : Frame) (lo hi : Pixel) :
  shape (inRange src lo hi) = shape src.
Proof. apply shape_tabulate_like. Qed.

Lemma shape_eqb_refl (s : nat * nat) : shape_eqb s s = true.
Proof. unfold shape_eqb. now rewrite !Nat.eqb_refl. Qed.

Lemma shape_eqb_eq (s t : nat * nat) : shape_eqb s t = true <-> s = t.
Proof.
  unfold shape_eqb. destruct s, t. cbn.
  rewrite andb_true_iff, !Nat.eqb_eq. split; [intros []|intros [=]]; now subst.
Qed.

Lemma in_shape_shape {A B} (a : Image A) (b : Image B) (y x : Z) :
  shape a = shape b -> in_shape a y x = in_shape b y x.
Proof. unfold shape, in_shape. now intros [= -> ->]. Qed.

Lemma lor_mark (a b : bool) : Z.lor (mark a) (mark b) = mark (a || b).
Proof. now destruct a, b. Qed.

Lemma get_out {A} (b : A) (m : Image A) (y x : Z) :
  in_shape m y x = false -> get b m y x = b.
Proof. unfold get. now intros ->. Qed.

Section SegmentationFacts.

Context {ops : ImageOps}.

(** The accumulation loop keeps the shape of the frame and marks the union
    of what it has seen. *)
Lemma combine_masks_spec (hsv : Frame) (rs : list (Pixel * Pixel)) :
  forall (acc : Mask) (sel : Z -> Z -> bool),
    shape acc = shape hsv ->
    (forall y x, get 0 acc y x = mark (in_shape hsv y x && sel y x)) ->
    exists m,
      fold_left (fun final_mask mask => fm <- final_mask ;; bitwise_or fm mask)
        (map (fun '(lower, upper) => inRange hsv lower upper) rs) (Ok acc)
      = Ok m /\
      shape m = shape hsv /\
      forall y x,
        get 0 m y x =
        mark (in_shape hsv y x && (sel y x || any_range rs (get black hsv y x))).
Proof.
  induction rs as [|[lo hi] rs IH]; intros acc sel Hshape Hacc.
  - exists acc. cbn. split; [reflexivity|]. split; [assumption|].
    intros y x. now rewrite orb_false_r.
  - cbn [map fold_left bind].
    unfold bitwise_or at 2.
    rewrite Hshape, shape_inRange, shape_eqb_refl.
    set (acc' := tabulate _ _ _).
    destruct (IH acc' (fun y x => sel y x || in_bounds lo hi (get black hsv y x)))
      as [m [Hm [Hs Hg]]].
    + unfold acc'. now rewrite shape_tabulate_like.
    + intros y x. unfold acc'. rewrite get_tabulate.
      fold (in_shape acc y x). rewrite (in_shape_shape acc hsv y x Hshape).
      rewrite Hacc, get_inRange, lor_mark.
      destruct (in_shape hsv y x); [|reflexivity]. reflexivity.
    + exists m. split; [exact Hm|]. split; [exact Hs|].
      intros y x. rewrite Hg. cbn [any_range existsb fst snd].
      now rewrite orb_assoc.
Qed.

Lemma mask_from_ranges_nonempty (hsv : Frame) (r : Pixel * Pixel)
    (rs : list (Pixel * Pixel)) :
  exists m,
    mask_from_ranges hsv (r :: rs) = Ok m /\
    shape m = shape hsv /\
    forall y x,
      get 0 m y x =
      mark (in_shape hsv y x && any_range (r :: rs) (get black hsv y x)).
Proof.
  unfold mask_from_ranges. destruct r as [lo hi]. cbn [map list_get nth_error bind tl].
  destruct (combine_masks_spec hsv rs (inRange hsv lo hi)
              (fun y x => in_bounds lo hi (get black hsv y x)))
    as [m [Hm [Hs Hg]]].
  - apply shape_inRange.
  - intros y x. apply get_inRange.
  - exists m. split; [exact Hm|]. split; [exact Hs|]. exact Hg.
Qed.

(** The range loop starts from [masks[0]]: on an empty list of ranges it
    raises.  No preset has an empty list (see [preset_lookup]). *)
Lemma mask_from_ranges_empty (hsv : Frame) :
  mask_from_ranges hsv [] = Raise IndexError.
Proof. reflexivity. Qed.

Lemma preset_lookup (i : nat) :
  (i < 4)%nat ->
  exists name info,
    list_get color_names i = Ok name /\
    dict_get COLOR_PRESETS name = Ok info /\
    ranges info = preset_ranges i /\
    exists r rs, preset_ranges i = r :: rs.
Proof.
  intros Hi.
  destruct i as [|[|[|[|i]]]]; [| | | |lia];
    eexists; eexists; (split; [reflexivity|]); (split; [reflexivity|]);
    (split; [reflexivity|]); eexists; eexists; reflexivity.
Qed.


End SegmentationFacts.

(** ** Morphology with the 3 x 3 kernel *)

Lemma morph_kernel_offsets :
  kernel_offsets morph_kernel =
  [ (-1, -1); (-1, 0); (-1, 1);
    (0, -1);  (0, 0);  (0, 1);
    (1, -1);  (1, 0);  (1, 1) ].
Proof. reflexivity. Qed.

Lemma in_morph_kernel (dy dx : Z) :
  In (dy, dx) (kernel_offsets morph_kernel) <->
  -1 <= dy <= 1 /\ -1 <= dx <= 1.
Proof.
  rewrite morph_kernel_offsets. cbn [In]. split.
  - intros H. repeat (destruct H as [[= <- <-]|H]; [lia|]). contradiction.
  - intros [Hy Hx].
    assert (Hy' : dy = -1 \/ dy = 0 \/ dy = 1) by lia.
    assert (Hx' : dx = -1 \/ dx = 0 \/ dx = 1) by lia.
    destruct Hy' as [->|[->| ->]], Hx' as [->|[->| ->]]; tauto.
Qed.

Lemma fold_min_pos (l : list Z) :
  0 < fold_right Z.min 255 l <-> forall v, In v l -> 0 < v.
Proof.
  induction l as [|a l IH]; cbn [fold_right In].
  - split; [intros _ v []|lia].
  - rewrite Z.min_glb_lt_iff, IH. split.
    + intros [Ha Hl] v [<-|Hv]; auto.
    + intros H. split; [apply H; now left|]. intros v Hv. apply H. now right.
Qed.

Lemma fold_max_pos (l : list Z) :
  0 < fold_right Z.max 0 l <-> exists v, In v l /\ 0 < v.
Proof.
  induction l as [|a l IH]; cbn [fold_right In].
  - split; [lia|intros [v [[] _]]].
  - rewrite Z.max_lt_iff, IH. split.
    + intros [Ha|[v [Hv Hp]]]; [exists a|exists v]; auto.
    + intros [v [[<-|Hv] Hp]]; [now left|right; now exists v].
Qed.

Lemma fold_max_nonneg (l : list Z) : 0 <= fold_right Z.max 0 l.
Proof. induction l as [|a l IH]; cbn [fold_right]; lia. Qed.

Lemma shape_erode1 (k : Image Z) (m : Mask) : shape (erode1 k m) = shape m.
Proof. apply shape_tabulate_like. Qed.

Lemma shape_dilate1 (k : Image Z) (m : Mask) : shape (dilate1 k m) = shape m.
Proof. apply shape_tabulate_like. Qed.

Lemma in_shape_erode1 (k : Image Z) (m : Mask) (y x : Z) :
  in_shape (erode1 k m) y x = in_shape m y x.
Proof. apply in_shape_like. Qed.

Lemma in_shape_dilate1 (k : Image Z) (m : Mask) (y x : Z) :
  in_shape (dilate1 k m) y x = in_shape m y x.
Proof. apply in_shape_like. Qed.

(** A cell survives an erosion pass only if its whole neighbourhood is set. *)
Lemma erode1_pos (m : Mask) (y x : Z) :
  0 < get 0 (erode1 morph_kernel m) y x ->
  in_shape m y x = true /\
  forall dy dx, -1 <= dy <= 1 -> -1 <= dx <= 1 ->
                0 < get 255 m (y + dy) (x + dx).
Proof.
  unfold erode1. rewrite get_tabulate. fold (in_shape m y x).
  destruct (in_shape m y x); [|lia].
  intros H. split; [reflexivity|]. intros dy dx Hy Hx.
  rewrite fold_min_pos in H. apply H.
  apply in_map_iff. exists (dy, dx). split; [reflexivity|].
  now apply in_morph_kernel.
Qed.

(** A cell is set after a dilation pass exactly when some cell of its
    neighbourhood was. *)
Lemma dilate1_pos (m : Mask) (y x : Z) :
  0 < get 0 (dilate1 morph_kernel m) y x <->
  in_shape m y x = true /\
  exists dy dx, -1 <= dy <= 1 /\ -1 <= dx <= 1 /\
                0 < get 0 m (y + dy) (x + dx).
Proof.
  unfold dilate1. rewrite get_tabulate. fold (in_shape m y x).
  destruct (in_shape m y x).
  - rewrite fold_max_pos. split.
    + intros [v [Hv Hp]]. split; [reflexivity|].
      apply in_map_iff in Hv. destruct Hv as [[dy dx] [<- Ho]].
      apply in_morph_kernel in Ho. exists dy, dx. cbn [fst snd] in Hp. tauto.
    + intros [_ [dy [dx [Hy [Hx Hp]]]]].
      exists (get 0 m (y + dy) (x + dx)). split; [|exact Hp].
      apply in_map_iff. exists (dy, dx). split; [reflexivity|].
      now apply in_morph_kernel.
  - split; [lia|intros [[=] _]].
Qed.

Lemma dilate1_nonneg (m : Mask) (y x : Z) :
  0 <= get 0 (dilate1 morph_kernel m) y x.
Proof.
  unfold dilate1. rewrite get_tabulate.
  destruct (in_grid _ _ y x); [apply fold_max_nonneg|lia].
Qed.

Lemma get_pos_in_shape (m : Mask) (y x : Z) :
  0 < get 0 m y x -> in_shape m y x = true.
Proof.
  unfold get. destruct (in_shape m y x); [reflexivity|lia].
Qed.

(** A dilation pass keeps every set cell. *)
Lemma dilate1_grow (m : Mask) (y x : Z) :
  0 < get 0 m y x -> 0 < get 0 (dilate1 morph_kernel m) y x.
Proof.
  intros H. apply dilate1_pos. split; [now apply get_pos_in_shape|].
  exists 0, 0. rewrite !Z.add_0_r. repeat split; try lia.
Qed.

(** A dilation pass sets every neighbour of a set cell. *)
Lemma dilate1_seed (m : Mask) (y x y' x' : Z) :
  0 < get 0 m y x -> in_shape m y' x' = true ->
  Z.abs (y' - y) <= 1 -> Z.abs (x' - x) <= 1 ->
  0 < get 0 (dilate1 morph_kernel m) y' x'.
Proof.
  intros H Hin Hy Hx. apply dilate1_pos. split; [exact Hin|].
  exists (y - y'), (x - x').
  replace (y' + (y - y')) with y by lia.
  replace (x' + (x - x')) with x by lia.
  repeat split; try lia.
Qed.

(** A cell set by a dilation pass was set before, or has a neighbour that
    was. *)
Lemma dilate1_step (m : Mask) (y x : Z) :
  0 < get 0 (dilate1 morph_kernel m) y x ->
  0 < get 0 m y x \/
  exists y' x', (y', x') <> (y, x) /\
                Z.abs (y' - y) <= 1 /\ Z.abs (x' - x) <= 1 /\
                0 < get 0 m y' x'.
Proof.
  intros H. apply dilate1_pos in H. destruct H as [_ [dy [dx [Hy [Hx Hp]]]]].
  destruct (Z.eq_dec dy 0) as [->|Hdy].
  - destruct (Z.eq_dec dx 0) as [->|Hdx].
    + left. now rewrite !Z.add_0_r in Hp.
    + right. exists (y + 0), (x + dx). repeat split; try lia; try assumption.
      intros [= _ E]. lia.
  - right. exists (y + dy), (x + dx). repeat split; try lia; try assumption.
    intros [= E _]. lia.
Qed.

(** In an array of at least two cells every cell has a neighbour. *)
Lemma neighbour_exists (h w : nat) (y x : Z) :
  in_grid h w y x = true -> (2 <= h \/ 2 <= w)%nat ->
  exists y' x', in_grid h w y' x' = true /\ (y', x') <> (y, x) /\
                Z.abs (y' - y) <= 1 /\ Z.abs (x' - x) <= 1.
Proof.
  intros Hin Hsz. apply in_grid_spec in Hin.
  destruct Hsz as [Hh|Hw].
  - destruct (Z.eq_dec y 0) as [->|Hy].
    + exists 1, x. rewrite in_grid_spec. repeat split; try lia. intros [=].
    + exists (y - 1), x. rewrite in_grid_spec. repeat split; try lia.
      intros [= E]. lia.
  - destruct (Z.eq_dec x 0) as [->|Hx].
    + exists y, 1. rewrite in_grid_spec. repeat split; try lia. intros [=].
    + exists y, (x - 1). rewrite in_grid_spec. repeat split; try lia.
      intros [= E]. lia.
Qed.

Lemma shape_opened_dilated (m : Mask) : shape (opened_dilated m) = shape m.
Proof.
  unfold opened_dilated, morphologyEx_OPEN, dilate, erode. cbv [Nat.iter nat_rect].
  now rewrite !shape_dilate1, !shape_erode1.
Qed.

Lemma opened_dilated_nonneg (m : Mask) (y x : Z) :
  0 <= get 0 (opened_dilated m) y x.
Proof. apply dilate1_nonneg. Qed.

(** After the opening and the dilation no set cell stands alone, unless the
    array is a single cell. *)
Lemma opened_dilated_neighbour (m : Mask) (y x : Z) :
  0 < get 0 (opened_dilated m) y x ->
  (2 <= height m \/ 2 <= width m)%nat ->
  exists y' x', (y', x') <> (y, x) /\
                Z.abs (y' - y) <= 1 /\ Z.abs (x' - x) <= 1 /\
                0 < get 0 (opened_dilated m) y' x'.
Proof.
  unfold opened_dilated, morphologyEx_OPEN, dilate, erode. cbv [Nat.iter nat_rect].
  set (E := erode1 morph_kernel (erode1 morph_kernel m)).
  intros H Hsz.
  assert (HsE : shape E = shape m)
    by (unfold E; now rewrite !shape_erode1).
  apply dilate1_step in H.
  destruct H as [H|[y' [x' [Hne [Hy [Hx H]]]]]];
    [|exists y', x'; repeat split; auto; now apply dilate1_grow].
  apply dilate1_step in H.
  destruct H as [H|[y' [x' [Hne [Hy [Hx H]]]]]];
    [|exists y', x'; repeat split; auto; now do 2 apply dilate1_grow].
  apply dilate1_step in H.
  destruct H as [H|[y' [x' [Hne [Hy [Hx H]]]]]];
    [|exists y', x'; repeat split; auto; now do 3 apply dilate1_grow].
  assert (Hin : in_grid (height m) (width m) y x = true).
  { apply get_pos_in_shape in H. unfold in_shape in H.
    injection HsE as Hh Hw. now rewrite Hh, Hw in H. }
  destruct (neighbour_exists _ _ _ _ Hin Hsz) as [y' [x' [Hin' [Hne [Hy Hx]]]]].
  exists y', x'. repeat split; auto.
  do 2 apply dilate1_grow.
  apply dilate1_seed with (y := y) (x := x); auto.
  unfold in_shape. injection HsE as Hh Hw. now rewrite Hh, Hw.
Qed.

(** ** The contour filter *)

Section RefineFacts.

Context {ops : ImageOps}.

Lemma get_fillPoly (img : Mask) (c : Contour) (y x : Z) :
  get 0 (fillPoly img [c] 0) y x =
  if polygon_covers c y x then 0 else get 0 img y x.
Proof.
  unfold fillPoly. rewrite get_tabulate. fold (in_shape img y x).
  cbn [existsb]. rewrite orb_false_r.
  destruct (in_shape img y x) eqn:Hin; [reflexivity|].
  rewrite (get_out 0 img y x Hin). now destruct (polygon_covers c y x).
Qed.

Lemma shape_fillPoly (img : Mask) (pts : list Contour) (color : Z) :
  shape (fillPoly img pts color) = shape img.
Proof. apply shape_tabulate_like. Qed.

(** The loop clears what a small contour covers and keeps the rest. *)
Lemma contour_loop_spec (cs : list Contour) (y x : Z) :
  forall mask : Mask,
    get 0
      (fold_left
         (fun mask contour =>
            if Qlt_bool (contourArea contour) (inject_Z 500)
            then fillPoly mask [contour] 0
            else mask)
         cs mask) y x =
    if existsb (fun c => small c && polygon_covers c y x) cs
    then 0
    else get 0 mask y x.
Proof.
  induction cs as [|c cs IH]; intros mask; [reflexivity|].
  cbn [fold_left existsb]. rewrite IH. fold (small c).
  destruct (existsb _ cs); [now rewrite orb_true_r|].
  rewrite orb_false_r.
  destruct (small c); [|reflexivity].
  cbn [andb]. apply get_fillPoly.
Qed.

Lemma contour_loop_shape (cs : list Contour) :
  forall mask : Mask,
    shape
      (fold_left
         (fun mask contour =>
            if Qlt_bool (contourArea contour) (inject_Z 500)
            then fillPoly mask [contour] 0
            else mask)
         cs mask) = shape mask.
Proof.
  induction cs as [|c cs IH]; intros mask; [reflexivity|].
  cbn [fold_left]. rewrite IH.
  destruct (Qlt_bool _ _); [apply shape_fillPoly|reflexivity].
Qed.

Lemma get_refine_mask (m : Mask) (y x : Z) :
  get 0 (refine_mask m) y x =
  if existsb (fun c => small c && polygon_covers c y x)
       (findContours (opened_dilated m))
  then 0
  else get 0 (opened_dilated m) y x.
Proof. unfold refine_mask. apply contour_loop_spec. Qed.

Lemma shape_refine_mask (m : Mask) : shape (refine_mask m) = shape m.
Proof.
  unfold refine_mask. rewrite contour_loop_shape. apply shape_opened_dilated.
Qed.

Lemma small_single_point (p : Z * Z) : small [p] = true.
Proof.
  unfold small, contourArea, Qlt_bool, Qle_bool. cbn [last shoelace].
  replace (fst p * snd p - snd p * fst p + 0) with 0 by ring.
  reflexivity.
Qed.

Lemma existsb_agree {A} (f g : A -> bool) (l : list A) :
  (forall a, In a l -> f a = g a) -> existsb f l = existsb g l.
Proof.
  induction l as [|a l IH]; intros H; [reflexivity|].
  cbn [existsb]. rewrite (H a) by now left.
  rewrite IH; [reflexivity|]. intros b Hb. apply H. now right.
Qed.

Lemma member_pos (v : Z) : 0 <= v -> member v = true -> 0 < v.
Proof.
  unfold member. intros Hv H. apply negb_true_iff, Z.eqb_neq in H. lia.
Qed.

Lemma pos_member (v : Z) : 0 < v -> member v = true.
Proof.
  unfold member. intros Hv. apply negb_true_iff, Z.eqb_neq. lia.
Qed.

Lemma not_member_zero (v : Z) : member v = false -> v = 0.
Proof.
  unfold member. intros H. apply negb_false_iff in H. now apply Z.eqb_eq.
Qed.

(** A set cell of the refined mask was set before the filter and lies under
    no small contour. *)
Lemma refine_member_inv (m : Mask) (y x : Z) :
  member (get 0 (refine_mask m) y x) = true ->
  existsb (fun c => small c && polygon_covers c y x)
    (findContours (opened_dilated m)) = false /\
  0 < get 0 (opened_dilated m) y x.
Proof.
  rewrite get_refine_mask. destruct (existsb _ _); [discriminate|].
  intros H. split; [reflexivity|].
  apply member_pos; [apply opened_dilated_nonneg|exact H].
Qed.

(** A mask with at most one set cell, in an array of at least two cells, is
    empty after one erosion pass. *)
Lemma erode1_speck (m : Mask) (y0 x0 : Z) :
  rectb m = true ->
  (2 <= height m \/ 2 <= width m)%nat ->
  (forall y x, in_shape m y x = true -> member (get 0 m y x) = true ->
               y = y0 /\ x = x0) ->
  forall y x, get 0 (erode1 morph_kernel m) y x <= 0.
Proof.
  intros Hr Hsz Hone y x.
  destruct (Z_lt_le_dec 0 (get 0 (erode1 morph_kernel m) y x)) as [H|H];
    [exfalso|exact H].
  apply erode1_pos in H. destruct H as [Hin Hall].
  destruct (neighbour_exists _ _ _ _ Hin Hsz) as [y' [x' [Hin' [Hne [Hy Hx]]]]].
  assert (Hset : forall dy dx, -1 <= dy <= 1 -> -1 <= dx <= 1 ->
                   in_shape m (y + dy) (x + dx) = true ->
                   y + dy = y0 /\ x + dx = x0).
  { intros dy dx Hdy Hdx Hi. apply Hone; [exact Hi|].
    apply pos_member. rewrite (get_border_indep 0 255 m _ _ Hr Hi).
    now apply Hall. }
  destruct (Hset 0 0) as [E1 E2]; try lia.
  { now rewrite !Z.add_0_r. }
  destruct (Hset (y' - y) (x' - x)) as [E3 E4]; try lia.
  { replace (y + (y' - y)) with y' by lia.
    now replace (x + (x' - x)) with x' by lia. }
  apply Hne. f_equal; lia.
Qed.

Lemma erode1_empty (m : Mask) :
  (forall y x, get 0 m y x <= 0) ->
  rectb m = true ->
  forall y x, get 0 (erode1 morph_kernel m) y x <= 0.
Proof.
  intros Hm Hr y x.
  destruct (Z_lt_le_dec 0 (get 0 (erode1 morph_kernel m) y x)) as [H|H];
    [exfalso|exact H].
  apply erode1_pos in H. destruct H as [Hin Hall].
  specialize (Hall 0 0). rewrite !Z.add_0_r in Hall.
  rewrite <- (get_border_indep 0 255 m _ _ Hr Hin) in Hall.
  specialize (Hm y x). lia.
Qed.

Lemma dilate1_empty (m : Mask) :
  (forall y x, get 0 m y x <= 0) ->
  forall y x, get 0 (dilate1 morph_kernel m) y x <= 0.
Proof.
  intros Hm y x.
  destruct (Z_lt_le_dec 0 (get 0 (dilate1 morph_kernel m) y x)) as [H|H];
    [exfalso|exact H].
  apply dilate1_pos in H. destruct H as [_ [dy [dx [_ [_ H]]]]].
  specialize (Hm (y + dy) (x + dx)). lia.
Qed.

Lemma opened_dilated_speck (m : Mask) (y0 x0 : Z) :
  rectb m = true ->
  (2 <= height m \/ 2 <= width m)%nat ->
  (forall y x, in_shape m y x = true -> member (get 0 m y x) = true ->
               y = y0 /\ x = x0) ->
  forall y x, get 0 (opened_dilated m) y x = 0.
Proof.
  intros Hr Hsz Hone y x.
  pose proof (opened_dilated_nonneg m y x) as Hge.
  enough (get 0 (opened_dilated m) y x <= 0) by lia.
  unfold opened_dilated, morphologyEx_OPEN, dilate, erode.
  cbv [Nat.iter nat_rect].
  do 3 apply dilate1_empty.
  apply erode1_empty; [|apply rectb_tabulate].
  now apply erode1_speck with (y0 := y0) (x0 := x0).
Qed.

End RefineFacts.

(** ** Refinement leaves no isolated cell *)

Section RefineTheorem.

Context {ops : ImageOps}.

Lemma refine_neighbour (m : Mask) (y x : Z) :
  ContourLaws ops ->
  member (get 0 (refine_mask m) y x) = true ->
  exists y' x',
    (y', x') <> (y, x) /\
    Z.abs (y' - y) <= 1 /\ Z.abs (x' - x) <= 1 /\
    member (get 0 (refine_mask m) y' x') = true.
Proof.
  intros laws H. apply refine_member_inv in H. destruct H as [Hex Hpos].
  pose proof (get_pos_in_shape _ _ _ Hpos) as Hin.
  destruct (le_lt_dec 2 (height m)) as [Hh|Hh];
    [|destruct (le_lt_dec 2 (width m)) as [Hw|Hw]].
  1,2: destruct (opened_dilated_neighbour m y x Hpos) as
         [y' [x' [Hne [Hy [Hx Hq]]]]]; [lia|];
       exists y', x'; repeat split; auto;
       rewrite get_refine_mask;
       rewrite (existsb_agree _
                  (fun c => small c && polygon_covers c y x));
       [ rewrite Hex; now apply pos_member
       | intros c Hc; f_equal; symmetry;
         apply (covers_connected (opened_dilated m) c y x y' x'); auto;
         [ now apply get_pos_in_shape | now apply pos_member
         | now apply pos_member ] ].
  (* a single cell: its one-point contour has area 0 and is filled *)
  exfalso.
  assert (Hone : forall y' x', in_shape (opened_dilated m) y' x' = true ->
                               y' = y /\ x' = x).
  { intros y' x' Hin'.
    rewrite (in_shape_shape _ m y x (shape_opened_dilated m)) in Hin.
    rewrite (in_shape_shape _ m y' x' (shape_opened_dilated m)) in Hin'.
    apply in_grid_spec in Hin. apply in_grid_spec in Hin'. lia. }
  assert (Hc : In [(x, y)] (findContours (opened_dilated m))).
  { apply single_point_contour;
      [exact Hin|now apply pos_member|intros y' x' Hin' _; now apply Hone]. }
  assert (Ht : existsb (fun c => small c && polygon_covers c y x)
                 (findContours (opened_dilated m)) = true).
  { apply existsb_exists. exists [(x, y)]. split; [exact Hc|].
    now rewrite small_single_point, single_point_covered. }
  congruence.
Qed.

(** C5. The refined mask has the shape of the input.  Given the contour
    laws, it has no isolated member for any input mask: every set cell has a
    set cell among its eight neighbours.  A mask whose only member is a
    single cell is refined to the all-false mask; in an array of at least two
    cells this needs nothing from contour tracing, since the first erosion
    already removes the cell. *)
Theorem refine_mask_no_isolated_pixel (m : Mask) :
  shape (refine_mask m) = shape m /\
  (ContourLaws ops ->
   forall y x,
     member (get 0 (refine_mask m) y x) = true ->
     exists y' x',
       (y', x') <> (y, x) /\
       Z.abs (y' - y) <= 1 /\ Z.abs (x' - x) <= 1 /\
       member (get 0 (refine_mask m) y' x') = true) /\
  (forall y0 x0,
      rectb m = true ->
      (forall y x, in_shape m y x = true -> member (get 0 m y x) = true ->
                   y = y0 /\ x = x0) ->
      (2 <= height m)%nat \/ (2 <= width m)%nat \/ ContourLaws ops ->
      forall y x, get 0 (refine_mask m) y x = 0).
Proof.
  split; [apply shape_refine_mask|].
  split; [intros laws y x; now apply refine_neighbour|].
  intros y0 x0 Hr Hone Hsz y x.
  destruct (le_lt_dec 2 (height m)) as [Hh|Hh];
    [|destruct (le_lt_dec 2 (width m)) as [Hw|Hw]].
  1,2: rewrite get_refine_mask;
       rewrite (opened_dilated_speck m y0 x0 Hr) by (auto; lia);
       now destruct (existsb _ _).
  destruct Hsz as [Hsz|[Hsz|laws]]; [lia|lia|].
  destruct (member (get 0 (refine_mask m) y x)) eqn:Hm;
    [exfalso|now apply not_member_zero].
  destruct (refine_neighbour m y x laws Hm) as [y' [x' [Hne [_ [_ Hm']]]]].
  assert (Hin : forall v u, member (get 0 (refine_mask m) v u) = true ->
                            v = 0 /\ u = 0).
  { intros v u Hvu. unfold get in Hvu.
    destruct (in_shape (refine_mask m) v u) eqn:Hi; [|discriminate].
    rewrite (in_shape_shape _ m _ _ (shape_refine_mask m)) in Hi.
    apply in_grid_spec in Hi. lia. }
  destruct (Hin _ _ Hm) as [-> ->]. destruct (Hin _ _ Hm') as [-> ->].
  now apply Hne.
Qed.

End RefineTheorem.

(** ** The sample instance satisfies the contour laws *)

Lemma isolatedb_spec (m : Mask) (y x : Z) :
  isolatedb m y x = true <->
  member (get 0 m y x) = true /\
  forall dy dx, -1 <= dy <= 1 -> -1 <= dx <= 1 -> (dy, dx) <> (0, 0) ->
                member (get 0 m (y + dy) (x + dx)) = false.
Proof.
  unfold isolatedb. rewrite andb_true_iff, forallb_forall. split.
  - intros [Hm Hall]. split; [exact Hm|]. intros dy dx Hy Hx Hne.
    specialize (Hall (dy, dx)). cbn [fst snd] in Hall.
    rewrite in_morph_kernel in Hall. specialize (Hall (conj Hy Hx)).
    apply orb_true_iff in Hall. destruct Hall as [H|H].
    + apply andb_true_iff in H. destruct H as [H1 H2].
      apply Z.eqb_eq in H1, H2. subst. now elim Hne.
    + now apply negb_true_iff in H.
  - intros [Hm Hall]. split; [exact Hm|]. intros [dy dx] Ho.
    apply in_morph_kernel in Ho. destruct Ho as [Hy Hx]. cbn [fst snd].
    destruct (Z.eq_dec dy 0) as [->|Hdy];
      [destruct (Z.eq_dec dx 0) as [->|Hdx]; [reflexivity|]|].
    + rewrite (Hall 0 dx) by (try lia; intros [=]; lia).
      now rewrite orb_true_r.
    + rewrite (Hall dy dx) by (try lia; intros [=]; lia).
      now rewrite orb_true_r.
Qed.

Lemma in_speck_contours (m : Mask) (c : Contour) :
  In c (speck_contours m) <->
  exists y x, c = [(x, y)] /\ in_shape m y x = true /\
              isolatedb m y x = true.
Proof.
  unfold speck_contours. rewrite in_flat_map. split.
  - intros [ny [Hny Hc]]. apply in_flat_map in Hc.
    destruct Hc as [nx [Hnx Hc]].
    destruct (isolatedb m (Z.of_nat ny) (Z.of_nat nx)) eqn:Hiso;
      [|contradiction].
    destruct Hc as [<-|[]].
    exists (Z.of_nat ny), (Z.of_nat nx).
    apply in_seq in Hny, Hnx.
    repeat split; auto. apply in_grid_spec. lia.
  - intros [y [x [-> [Hin Hiso]]]]. apply in_grid_spec in Hin.
    exists (Z.to_nat y). split; [apply in_seq; lia|].
    apply in_flat_map. exists (Z.to_nat x). split; [apply in_seq; lia|].
    rewrite !Z2Nat.id by lia. rewrite Hiso. now left.
Qed.

Lemma speck_laws : ContourLaws speck_ops.
Proof.
  constructor; cbn [findContours polygon_covers speck_ops].
  - intros m c y x y' x' Hc _ _ Hm Hm' Hy Hx.
    apply in_speck_contours in Hc.
    destruct Hc as [y0 [x0 [-> [_ Hiso]]]]. cbn [point_covers].
    apply isolatedb_spec in Hiso. destruct Hiso as [_ Hiso].
    destruct ((x0 =? x) && (y0 =? y)) eqn:E1;
      destruct ((x0 =? x') && (y0 =? y')) eqn:E2; try reflexivity; exfalso.
    + apply andb_true_iff in E1. destruct E1 as [Ex Ey].
      apply Z.eqb_eq in Ex, Ey. subst x0 y0.
      assert (Hne : (y' - y, x' - x) <> (0, 0)).
      { intros [= Ea Eb]. assert (x' = x) by lia. assert (y' = y) by lia.
        subst. now rewrite !Z.eqb_refl in E2. }
      specialize (Hiso (y' - y) (x' - x)).
      replace (y + (y' - y)) with y' in Hiso by lia.
      replace (x + (x' - x)) with x' in Hiso by lia.
      rewrite Hiso in Hm'; [discriminate|lia|lia|exact Hne].
    + apply andb_true_iff in E2. destruct E2 as [Ex Ey].
      apply Z.eqb_eq in Ex, Ey. subst x0 y0.
      assert (Hne : (y - y', x - x') <> (0, 0)).
      { intros [= Ea Eb]. assert (x' = x) by lia. assert (y' = y) by lia.
        subst. now rewrite !Z.eqb_refl in E1. }
      specialize (Hiso (y - y') (x - x')).
      replace (y' + (y - y')) with y in Hiso by lia.
      replace (x' + (x - x')) with x in Hiso by lia.
      rewrite Hiso in Hm; [discriminate|lia|lia|exact Hne].
  - intros m y x Hin Hm Hone. apply in_speck_contours.
    exists y, x. repeat split; auto. apply isolatedb_spec.
    split; [exact Hm|]. intros dy dx Hy Hx Hne.
    destruct (member (get 0 m (y + dy) (x + dx))) eqn:Hq; [exfalso|reflexivity].
    assert (Hi : in_shape m (y + dy) (x + dx) = true).
    { unfold get in Hq. now destruct (in_shape m (y + dy) (x + dx)). }
    destruct (Hone _ _ Hi Hq) as [Ea Eb].
    apply Hne. f_equal; lia.
  - intros y x. cbn [point_covers]. now rewrite !Z.eqb_refl.
Qed.

(** The speck of [speck_mask] is erased, and the corner of [block_mask]
    keeps a neighbour. *)
Lemma refine_mask_no_isolated_pixel_witness :
  get 0 (@refine_mask speck_ops speck_mask) 1 1 = 0 /\
  exists y' x',
    (y', x') <> (0, 0) /\
    Z.abs (y' - 0) <= 1 /\ Z.abs (x' - 0) <= 1 /\
    member (get 0 (@refine_mask speck_ops block_mask) y' x') = true.
Proof.
  split.
  - apply (proj2 (proj2 (@refine_mask_no_isolated_pixel speck_ops speck_mask))
             1 1).
    + reflexivity.
    + intros y x Hin Hm. apply in_grid_spec in Hin. cbn in Hin.
      assert (Hy : y = 0 \/ y = 1 \/ y = 2) by lia.
      assert (Hx : x = 0 \/ x = 1 \/ x = 2) by lia.
      destruct Hy as [->|[->| ->]], Hx as [->|[->| ->]];
        cbn in Hm; try discriminate Hm; split; reflexivity.
    + left. apply Nat.leb_le. reflexivity.
  - apply (proj1 (proj2 (@refine_mask_no_isolated_pixel speck_ops block_mask))
             speck_laws 0 0).
    vm_compute. reflexivity.
Defined.

(** ** Two-valued masks *)










Section BinaryFacts.

Context {ops : ImageOps}.





(** Segmentation succeeds for every state whose colour index names a
    preset. *)
Lemma create_color_mask_total (st : Cloak) (hsv : Frame) :
  (current_color_index st < 4)%nat ->
  exists m, create_color_mask st hsv = Ok m /\ shape m = shape hsv.
Proof.
  intros Hi. unfold create_color_mask.
  destruct (if is_active (hsv_tuner st) then _ else None) as [[lo hi]|].
  - eexists. split; [reflexivity|apply shape_inRange].
  - destruct (preset_lookup _ Hi) as [name [info [Hn [Hd [Hr [r [rs Hrs]]]]]]].
    rewrite Hn. cbn [bind]. rewrite Hd. cbn [bind]. rewrite Hr, Hrs.
    destruct (mask_from_ranges_nonempty hsv r rs) as [m [Hm [Hs _]]].
    exists m. now split.
Qed.


End BinaryFacts.

(** ** Compositing *)

Lemma pixel_land_diag (p : Pixel) : pixel_land p p = p.
Proof. destruct p as [[a b] c]. cbn. now rewrite !Z.land_diag. Qed.





Lemma shape_bitwise_not (m : Mask) : shape (bitwise_not m) = shape m.
Proof. apply shape_tabulate_like. Qed.

Lemma get_tabulate_like {A B} (b : B) (m : Image A) (f : Z -> Z -> B)
    (y x : Z) :
  get b (tabulate (height m) (width m) f) y x =
  if in_shape m y x then f y x else b.
Proof. apply get_tabulate. Qed.


Lemma bitwise_and_self (src : Frame) (mask : Mask) :
  shape mask = shape src ->
  exists out,
    bitwise_and src src mask = Ok out /\
    shape out = shape src /\
    forall y x,
      get black out y x =
      if in_shape src y x && member (get 0 mask y x)
      then get black src y x
      else black.
Proof.
  intros Hs. unfold bitwise_and. rewrite Hs, !shape_eqb_refl. cbn [andb].
  eexists. split; [reflexivity|]. split; [apply shape_tabulate_like|].
  intros y x. rewrite get_tabulate_like, pixel_land_diag.
  now destruct (in_shape src y x).
Qed.

Lemma add_same_shape (a b : Frame) :
  shape a = shape b ->
  exists out,
    add a b = Ok out /\
    shape out = shape a /\
    forall y x,
      get black out y x =
      if in_shape a y x
      then pixel_add (get black a y x) (get black b y x)
      else black.
Proof.
  intros Hs. unfold add. rewrite Hs, shape_eqb_refl.
  eexists. split; [reflexivity|]. rewrite <- Hs.
  split; [apply shape_tabulate_like|].
  intros y x. now rewrite get_tabulate_like.
Qed.


Section PipelineTheorems.

Context {ops : ImageOps}.

Lemma shape_cvtColor (frame : Frame) :
  shape (cvtColor_BGR2HSV frame) = shape frame.
Proof. apply shape_tabulate_like. Qed.

(** C1. With no background plate the effect returns the input frame
    unchanged, whatever the tuner, the preset and the frame are. *)
Theorem apply_invisibility_effect_identity (st : Cloak) (frame : Frame) :
  background st = None ->
  apply_invisibility_effect st frame = Ok frame.
Proof.
  intros Hb. unfold apply_invisibility_effect. now rewrite Hb.
Qed.


Lemma in_bounds_wider (r r' : Pixel * Pixel) (p : Pixel) :
  wider r r' ->
  in_bounds (fst r) (snd r) p = true ->
  in_bounds (fst r') (snd r') p = true.
Proof.
  destruct r as [[[l0 l1] l2] [[u0 u1] u2]].
  destruct r' as [[[l0' l1'] l2'] [[u0' u1'] u2']].
  destruct p as [[p0 p1] p2].
  unfold wider, pixel_le, in_bounds. cbn [fst snd].
  rewrite !andb_true_iff, !Z.leb_le. lia.
Qed.

Lemma any_range_wider (rs rs' : list (Pixel * Pixel)) (p : Pixel) :
  Forall2 wider rs rs' ->
  any_range rs p = true -> any_range rs' p = true.
Proof.
  induction 1 as [|r r' rs rs' Hr _ IH]; [trivial|].
  unfold any_range in *. cbn [existsb]. rewrite !orb_true_iff.
  intros [H|H]; [left; now apply (in_bounds_wider r r')|right; now apply IH].
Qed.

Lemma member_mark (b : bool) : member (mark b) = b.
Proof. now destruct b. Qed.

(** C8. Segmentation is monotonic in the range bounds: a pixel that is a
    member under a list of ranges stays a member when any of the ranges has
    lower bounds decreased or upper bounds increased, and the same holds for
    the single range of the tuner. *)
Theorem segmentation_monotone :
  (forall hsv rs rs' m,
      Forall2 wider rs rs' ->
      mask_from_ranges hsv rs = Ok m ->
      exists m',
        mask_from_ranges hsv rs' = Ok m' /\
        forall y x, member (get 0 m y x) = true ->
                    member (get 0 m' y x) = true) /\
  (forall hsv r r' y x,
      wider r r' ->
      member (get 0 (inRange hsv (fst r) (snd r)) y x) = true ->
      member (get 0 (inRange hsv (fst r') (snd r')) y x) = true).
Proof.
  split.
  - intros hsv rs rs' m Hw Hm.
    destruct Hw as [|r r' rs rs' Hr Hrs]; [discriminate|].
    destruct (mask_from_ranges_nonempty hsv r rs) as [m0 [Hm0 [_ Hg]]].
    destruct (mask_from_ranges_nonempty hsv r' rs') as [m' [Hm' [_ Hg']]].
    rewrite Hm0 in Hm. injection Hm as <-.
    exists m'. split; [exact Hm'|]. intros y x.
    rewrite Hg, Hg', !member_mark, !andb_true_iff.
    intros [Hin Hany]. split; [exact Hin|].
    apply (any_range_wider (r :: rs) (r' :: rs')); [|exact Hany].
    now constructor.
  - intros hsv r r' y x Hw. rewrite !get_inRange, !member_mark, !andb_true_iff.
    intros [Hin Hb]. split; [exact Hin|]. now apply (in_bounds_wider r r').
Qed.

(** ** The tuner *)

Lemma toggle_active_initialized (t : HSVTuner) (g : Gui) :
  is_active (fst (toggle t g)) = true ->
  is_initialized (fst (toggle t g)) = true.
Proof.
  unfold toggle, _create_window. cbn [is_active is_initialized window_name].
  destruct (is_active t), (is_initialized t); cbn; congruence.
Qed.



End PipelineTheorems.

(** ** Operator commands *)

Lemma same_controls_refl (a : Cloak) : same_controls a a.
Proof. repeat split. Qed.

Lemma same_controls_trans (a b c : Cloak) :
  same_controls a b -> same_controls b c -> same_controls a c.
Proof.
  unfold same_controls. intros (?&?&?&?&?) (?&?&?&?&?).
  repeat split; congruence.
Qed.

Section CommandTheorems.

Context {ops : ImageOps}.

Lemma countdown_step_spec (st : Cloak) (i : nat) :
  cap (countdown_step st i) = tl (cap st) /\
  same_controls (countdown_step st i) st.
Proof.
  unfold countdown_step, cap_read.
  destruct (cap st) as [|[frame|] rest] eqn:Hc.
  - rewrite Hc. split; [reflexivity|apply same_controls_refl].
  - split; [reflexivity|repeat split].
  - split; [reflexivity|repeat split].
Qed.

Lemma countdown_loop_spec (l : list nat) :
  forall st,
    cap (fold_left countdown_step l st) = skipn (length l) (cap st) /\
    same_controls (fold_left countdown_step l st) st.
Proof.
  induction l as [|i l IH]; intros st.
  - split; [reflexivity|apply same_controls_refl].
  - cbn [fold_left length]. destruct (IH (countdown_step st i)) as [Hc Hs].
    destruct (countdown_step_spec st i) as [Hc1 Hs1].
    split.
    + rewrite Hc, Hc1.
      destruct (cap st); [now rewrite !skipn_nil|reflexivity].
    + now apply (same_controls_trans _ (countdown_step st i)).
Qed.

(** While every read fails the capture loop collects nothing and touches
    only the camera. *)
Lemma capture_loop_fails (num_frames : nat) (l : list nat) :
  forall st frames,
    forallb failed_read (firstn (length l) (cap st)) = true ->
    exists st',
      fold_left (capture_step num_frames) l (st, frames) = (st', frames) /\
      same_controls st' st /\
      shown st' = shown st /\
      console st' = console st.
Proof.
  induction l as [|i l IH]; intros st frames Hf.
  - exists st. repeat split.
  - cbn [fold_left length]. unfold capture_step at 2, cap_read.
    destruct (cap st) as [|[frame|] rest] eqn:Hc.
    + destruct (IH st frames) as [st' H]; [now rewrite Hc, firstn_nil|].
      now exists st'.
    + cbn in Hf. discriminate.
    + cbn [firstn forallb failed_read andb] in Hf.
      destruct (IH (set_cap st rest) frames) as [st' (H1 & H2 & H3 & H4)];
        [exact Hf|].
      exists st'. split; [exact H1|].
      split; [|now split].
      apply (same_controls_trans _ (set_cap st rest)); [exact H2|repeat split].
Qed.

(** C3. When none of the [num_frames] reads of the capture phase succeeds
    (the reads that follow the 60 reads of the countdown), capture reports
    failure and returns [False]; the plate held before is left as it was,
    together with the tuner, the recording state and the preset index. *)
Theorem capture_background_all_or_nothing (st : Cloak) (num_frames : nat) :
  forallb failed_read (firstn num_frames (skipn 60 (cap st))) = true ->
  exists st',
    capture_background st num_frames = (st', false) /\
    background st' = background st /\
    same_controls st' st /\
    hd "" (console st') = "❌ Failed to capture background".
Proof.
  intros Hf. unfold capture_background.
  set (st0 := print (print st _) _).
  destruct (countdown_loop_spec (seq 0 60) st0) as [Hc Hs].
  rewrite length_seq in Hc.
  destruct (capture_loop_fails num_frames (seq 0 num_frames)
              (fold_left countdown_step (seq 0 60) st0) [])
    as [st1 (H1 & H2 & _ & _)].
  { rewrite length_seq, Hc. exact Hf. }
  rewrite H1. eexists. split; [reflexivity|].
  assert (Hall : same_controls st1 st).
  { apply (same_controls_trans _ _ _ H2).
    apply (same_controls_trans _ _ _ Hs). repeat split. }
  split; [apply Hall|]. split; [|reflexivity].
  apply (same_controls_trans _ st1); [repeat split|exact Hall].
Qed.

(** C7. Issued while not recording, [toggle_recording] leaves the flag
    false when no frame can be read (reporting that no frame is available and
    leaving the sink field as it was) and when the sink fails to open for the
    frame that was read (reporting it and leaving no sink behind). *)
Theorem toggle_recording_start_failure (st : Cloak) :
  is_recording st = false ->
  (fst (cap_read st) = None ->
   is_recording (toggle_recording st) = false /\
   video_writer (toggle_recording st) = video_writer st /\
   background (toggle_recording st) = background st /\
   console (toggle_recording st) =
     "❌ Cannot start recording - no frame available" :: console st) /\
  (forall frame,
      fst (cap_read st) = Some frame ->
      sink_opens st ("invisibility_cloak_" ++ clock st ++ ".mp4")
                 (width frame, height frame) = false ->
      is_recording (toggle_recording st) = false /\
      video_writer (toggle_recording st) = None /\
      background (toggle_recording st) = background st /\
      console (toggle_recording st) =
        "❌ Failed to initialize video writer" :: console st).
Proof.
  intros Hr. unfold toggle_recording, cap_read. rewrite Hr. cbn [negb].
  destruct (cap st) as [|[frame|] rest] eqn:Hc; cbn [fst].
  - split; [intros _|discriminate]. cbn. now rewrite Hr.
  - split; [discriminate|]. intros f [= <-] Hopen.
    cbn in Hopen |- *. rewrite Hopen. cbn. now rewrite Hr.
  - split; [intros _|discriminate]. cbn. now rewrite Hr.
Qed.

(** C10. Starting a recording takes exactly one frame from the camera and
    uses it only to size the sink.  The frame is neither shown nor written:
    the display is as before, and the outcome is decided by the encoder
    alone.  If it opens the file for the frame's width and height, the
    recording is on and the writer is fresh: 30 fps, the frame's dimensions,
    no frame written.  If it does not, the recording stays off and no writer
    is held.  The plate and the tuner are untouched, and any other frame of
    the same dimensions leads to the same state. *)
Theorem toggle_recording_probe_frame (st : Cloak) (frame : Frame)
    (rest : list (option Frame)) :
  is_recording st = false ->
  cap st = Some frame :: rest ->
  cap (toggle_recording st) = rest /\
  shown (toggle_recording st) = shown st /\
  background (toggle_recording st) = background st /\
  hsv_tuner (toggle_recording st) = hsv_tuner st /\
  is_recording (toggle_recording st) =
    sink_opens st ("invisibility_cloak_" ++ clock st ++ ".mp4")
               (width frame, height frame) /\
  video_writer (toggle_recording st) =
    (if sink_opens st ("invisibility_cloak_" ++ clock st ++ ".mp4")
                   (width frame, height frame)
     then Some {| vw_filename := "invisibility_cloak_" ++ clock st ++ ".mp4";
                  vw_fps := 30;
                  vw_size := (width frame, height frame);
                  vw_opened := true;
                  vw_frames := [] |}
     else None) /\
  (forall frame',
      shape frame' = shape frame ->
      toggle_recording (set_cap st (Some frame' :: rest))
      = toggle_recording st).
Proof.
  intros Hr Hc. unfold toggle_recording, cap_read.
  cbn [set_cap is_recording cap clock]. rewrite Hr, Hc. cbn [negb].
  cbn [shape set_video_writer video_writer VideoWriter_new vw_opened
       set_cap sink_opens].
  split; [|split; [|split; [|split; [|split; [|split]]]]].
  - now destruct (sink_opens st _ _).
  - now destruct (sink_opens st _ _).
  - now destruct (sink_opens st _ _).
  - now destruct (sink_opens st _ _).
  - destruct (sink_opens st _ _) eqn:E; cbn; [reflexivity|exact Hr].
  - unfold VideoWriter_new. cbn [sink_opens set_cap].
    destruct (sink_opens st _ _); reflexivity.
  - intros frame' [= Hh Hw]. cbn [shape]. rewrite Hh, Hw. reflexivity.
Qed.

End CommandTheorems.

(* ================================================================== *)
(** * The model on concrete arrays *)

Example red_mask_of_sample :
  mask_from_ranges sample_hsv (preset_ranges 0) = Ok sample_red_mask.
Proof. reflexivity. Qed.

Example create_color_mask_sample :
  @create_color_mask (sample_session []) sample_hsv = Ok sample_red_mask.
Proof. reflexivity. Qed.

(** One toggle creates the sliders at their defaults, and the mask then
    follows the sliders: only the first red range is left. *)
Example tuner_range_after_toggle :
  get_hsv_range (hsv_tuner tuning_session) (gui tuning_session)
  = Some ((0, 120, 70), (10, 255, 255)).
Proof. reflexivity. Qed.

Example create_color_mask_tuning :
  @create_color_mask tuning_session sample_hsv = Ok [[255; 0]; [0; 0]].
Proof. reflexivity. Qed.

Example refine_block :
  @refine_mask speck_ops block_mask = block_mask.
Proof. vm_compute. reflexivity. Qed.

Example refine_speck :
  @refine_mask speck_ops speck_mask = [[0; 0; 0]; [0; 0; 0]; [0; 0; 0]].
Proof. vm_compute. reflexivity. Qed.

Example composite_sample :
  composite sample_frame sample_plate sample_select
  = Ok [[(1, 2, 3); (40, 50, 60)]; [(70, 80, 90); (11, 12, 13)]].
Proof. vm_compute. reflexivity. Qed.

(** A cell that is neither 0 nor 255 lets both layers through: the sum
    saturates instead of selecting. *)
Example composite_grey_cell :
  composite [[(10, 20, 30)]] [[(1, 2, 3)]] [[100]] = Ok [[(11, 22, 33)]].
Proof. vm_compute. reflexivity. Qed.

Example composite_size_mismatch :
  composite sample_frame [[(1, 2, 3)]] sample_select = Raise CvError.
Proof. vm_compute. reflexivity. Qed.

(** One readable frame in the capture phase installs a plate. *)
Example capture_one_frame :
  let r := @capture_background speck_ops
             (sample_session (repeat (Some sample_frame) 61)) 1 in
  snd r = true /\ background (fst r) = Some (flip1 sample_frame).
Proof. vm_compute. split; reflexivity. Qed.

(** Toggling the recording twice returns to [Recording = false]. *)
Example toggle_recording_twice :
  let st := toggle_recording (sample_session [Some sample_frame]) in
  is_recording st = true /\
  is_recording (toggle_recording st) = false /\
  video_writer (toggle_recording st) = None.
Proof. vm_compute. repeat split; reflexivity. Qed.

(* ================================================================== *)
(** * The theorems at concrete inputs *)

Lemma apply_invisibility_effect_identity_witness :
  @apply_invisibility_effect speck_ops (sample_session []) sample_frame
  = Ok sample_frame.
Proof.
  apply (@apply_invisibility_effect_identity speck_ops). reflexivity.
Defined.


Lemma capture_background_all_or_nothing_witness :
  exists st',
    @capture_background speck_ops (plated_session failing_camera) 30
    = (st', false) /\
    background st' = Some sample_plate /\
    same_controls st' (plated_session failing_camera) /\
    hd "" (console st') = "❌ Failed to capture background".
Proof.
  apply (@capture_background_all_or_nothing speck_ops
           (plated_session failing_camera) 30).
  reflexivity.
Defined.


Lemma toggle_recording_start_failure_witness :
  is_recording (toggle_recording (sample_session [])) = false /\
  video_writer (toggle_recording (sample_session [])) = None /\
  background (toggle_recording (sample_session [])) = None /\
  console (toggle_recording (sample_session [])) =
    ["❌ Cannot start recording - no frame available"].
Proof.
  apply (proj1 (toggle_recording_start_failure (sample_session []) eq_refl)).
  reflexivity.
Defined.

Lemma segmentation_monotone_witness :
  exists m',
    mask_from_ranges sample_hsv wide_red = Ok m' /\
    forall y x, member (get 0 sample_red_mask y x) = true ->
                member (get 0 m' y x) = true.
Proof.
  apply (proj1 segmentation_monotone sample_hsv (preset_ranges 0) wide_red).
  - repeat constructor; cbn; intros H; discriminate H.
  - reflexivity.
Defined.


Lemma toggle_recording_probe_frame_witness :
  cap (toggle_recording (sample_session [Some sample_frame; None])) = [None] /\
  shown (toggle_recording (sample_session [Some sample_frame; None])) = [] /\
  is_recording (toggle_recording (sample_session [Some sample_frame; None]))
  = true /\
  video_writer (toggle_recording (sample_session [Some sample_frame; None]))
  = Some {| vw_filename := "invisibility_cloak_20240101_120000.mp4";
            vw_fps := 30;
            vw_size := (width sample_frame, height sample_frame);
            vw_opened := true;
            vw_frames := [] |}.
Proof.
  destruct (toggle_recording_probe_frame
              (sample_session [Some sample_frame; None])
              sample_frame [None] eq_refl eq_refl)
    as [H1 [H2 [_ [_ [H5 [H6 _]]]]]].
  split; [exact H1|]. split; [exact H2|]. split; [exact H5|exact H6].
Defined.

(* ================================================================== *)
(** * Further properties of the pipeline and the commands *)

(** ** Cycling through the presets *)

Section MoreCommandTheorems.

Context {ops : ImageOps}.

Lemma color_names_length : length color_names = 4%nat.
Proof. reflexivity. Qed.

Lemma cycle_color_step (st : Cloak) :
  exists st',
    cycle_color st = Ok st' /\
    current_color_index st' = ((current_color_index st + 1) mod 4)%nat /\
    (current_color_index st' < 4)%nat /\
    cap st' = cap st /\ shown st' = shown st /\ gui st' = gui st /\
    background st' = background st /\ hsv_tuner st' = hsv_tuner st /\
    video_writer st' = video_writer st /\ is_recording st' = is_recording st.
Proof.
  unfold cycle_color. rewrite color_names_length.
  cbn [set_current_color_index current_color_index].
  assert (Hlt : ((current_color_index st + 1) mod 4 < 4)%nat)
    by (apply Nat.mod_upper_bound; discriminate).
  destruct (preset_lookup _ Hlt) as [name [info [Hn [Hd _]]]].
  rewrite Hn. cbn [bind]. rewrite Hd. cbn [bind].
  eexists. split; [reflexivity|]. cbn. repeat split. exact Hlt.
Qed.

(** X1. [cycle_color] never fails: it moves the index to the next preset
    modulo four (bringing even an out-of-range index back into range) and
    touches nothing but the index and the console; from a valid index four
    calls lead back to the same preset, hence to the same mask. *)
Theorem cycle_color_period :
  (forall st,
      exists st',
        cycle_color st = Ok st' /\
        current_color_index st' = ((current_color_index st + 1) mod 4)%nat /\
        (current_color_index st' < 4)%nat /\
        cap st' = cap st /\ shown st' = shown st /\ gui st' = gui st /\
        background st' = background st /\ hsv_tuner st' = hsv_tuner st /\
        video_writer st' = video_writer st /\
        is_recording st' = is_recording st) /\
  (forall st hsv,
      (current_color_index st < 4)%nat ->
      exists st4,
        (st1 <- cycle_color st ;; st2 <- cycle_color st1 ;;
         st3 <- cycle_color st2 ;; cycle_color st3) = Ok st4 /\
        current_color_index st4 = current_color_index st /\
        create_color_mask st4 hsv = create_color_mask st hsv).
Proof.
  split; [exact cycle_color_step|].
  intros st hsv Hi.
  destruct (cycle_color_step st)
    as (st1 & E1 & I1 & _ & _ & _ & G1 & _ & T1 & _).
  destruct (cycle_color_step st1)
    as (st2 & E2 & I2 & _ & _ & _ & G2 & _ & T2 & _).
  destruct (cycle_color_step st2)
    as (st3 & E3 & I3 & _ & _ & _ & G3 & _ & T3 & _).
  destruct (cycle_color_step st3)
    as (st4 & E4 & I4 & _ & _ & _ & G4 & _ & T4 & _).
  rewrite E1. cbn [bind]. rewrite E2. cbn [bind]. rewrite E3. cbn [bind].
  exists st4. split; [exact E4|].
  assert (Hidx : current_color_index st4 = current_color_index st).
  { rewrite I4, I3, I2, I1.
    destruct (current_color_index st) as [|[|[|[|i]]]]; [reflexivity..|lia]. }
  split; [exact Hidx|].
  unfold create_color_mask. rewrite Hidx.
  replace (hsv_tuner st4) with (hsv_tuner st) by congruence.
  replace (gui st4) with (gui st) by congruence.
  reflexivity.
Qed.

(** ** Dimensions in the effect *)

Lemma composite_shapes (frame plate : Frame) (mask : Mask) :
  shape mask = shape frame ->
  (shape plate = shape frame ->
   exists out, composite frame plate mask = Ok out /\
               shape out = shape frame) /\
  (shape plate <> shape frame ->
   composite frame plate mask = Raise CvError).
Proof.
  intros Hsm. split.
  - intros Hsp. unfold composite.
    destruct (bitwise_and_self plate mask) as [bp [Hbp [Hsbp _]]];
      [congruence|].
    destruct (bitwise_and_self frame (bitwise_not mask)) as [fp [Hfp [Hsfp _]]];
      [now rewrite shape_bitwise_not|].
    destruct (add_same_shape bp fp) as [out [Hout [Hso _]]]; [congruence|].
    rewrite Hbp, Hfp. cbn [bind]. exists out. split; [exact Hout|congruence].
  - intros Hne. unfold composite, bitwise_and at 1.
    rewrite shape_eqb_refl. cbn [andb].
    destruct (shape_eqb (shape plate) (shape mask)) eqn:E; [|reflexivity].
    apply shape_eqb_eq in E. congruence.
Qed.

Lemma effect_dimensions (st : Cloak) (frame plate : Frame) :
  background st = Some plate ->
  (current_color_index st < 4)%nat ->
  (shape plate = shape frame ->
   exists out, apply_invisibility_effect st frame = Ok out /\
               shape out = shape frame) /\
  (shape plate <> shape frame ->
   apply_invisibility_effect st frame = Raise CvError).
Proof.
  intros Hbg Hi. unfold apply_invisibility_effect. rewrite Hbg.
  destruct (create_color_mask_total st (cvtColor_BGR2HSV frame) Hi)
    as [mask [Hmask Hsm]].
  rewrite shape_cvtColor in Hsm. rewrite Hmask. cbn [bind].
  apply composite_shapes. now rewrite shape_refine_mask.
Qed.


End MoreCommandTheorems.

(** ** Refinement stays near the input *)

(** The opening never sets a cell that was not set. *)
Lemma opening_inside (m : Mask) (y x : Z) :
  rectb m = true ->
  0 < get 0 (morphologyEx_OPEN m morph_kernel 2) y x ->
  in_shape m y x = true /\ 0 < get 0 m y x.
Proof.
  intros Hr. unfold morphologyEx_OPEN, dilate, erode.
  cbv [Nat.iter nat_rect].
  set (E1 := erode1 morph_kernel m).
  set (E2 := erode1 morph_kernel E1).
  intros H. apply dilate1_pos in H.
  destruct H as [Hin [dy1 [dx1 [Hy1 [Hx1 H]]]]].
  rewrite in_shape_dilate1 in Hin. unfold E2, E1 in Hin.
  rewrite !in_shape_erode1 in Hin.
  pose proof (get_pos_in_shape _ _ _ H) as Hin1.
  rewrite in_shape_dilate1 in Hin1. unfold E2 in Hin1.
  rewrite in_shape_erode1 in Hin1.
  apply dilate1_pos in H. destruct H as [_ [dy2 [dx2 [Hy2 [Hx2 H]]]]].
  apply erode1_pos in H. destruct H as [_ H].
  specialize (H (- dy2) (- dx2)).
  replace (y + dy1 + dy2 + - dy2) with (y + dy1) in H by lia.
  replace (x + dx1 + dx2 + - dx2) with (x + dx1) in H by lia.
  rewrite <- (get_border_indep 0 255 E1 _ _ (rectb_tabulate _ _ _) Hin1) in H
    by lia.
  specialize (H ltac:(lia) ltac:(lia)).
  apply erode1_pos in H. destruct H as [_ H].
  specialize (H (- dy1) (- dx1)).
  replace (y + dy1 + - dy1) with y in H by lia.
  replace (x + dx1 + - dx1) with x in H by lia.
  split; [exact Hin|].
  rewrite (get_border_indep 0 255 m _ _ Hr Hin). apply H; lia.
Qed.

Section RefineLocality.

Context {ops : ImageOps}.

(** X3. Refinement grows the mask by at most one cell: every member of the
    refined mask is, or touches, a member of the input mask.  In particular
    the all-false mask is refined to the all-false mask, whatever the contour
    tracer does. *)
Theorem refine_mask_grows_by_one (m : Mask) :
  rectb m = true ->
  (forall y x,
      member (get 0 (refine_mask m) y x) = true ->
      exists y' x',
        Z.abs (y' - y) <= 1 /\ Z.abs (x' - x) <= 1 /\
        in_shape m y' x' = true /\ member (get 0 m y' x') = true) /\
  ((forall y x, member (get 0 m y x) = false) ->
   forall y x, get 0 (refine_mask m) y x = 0).
Proof.
  intros Hr.
  assert (Hnear : forall y x,
             member (get 0 (refine_mask m) y x) = true ->
             exists y' x',
               Z.abs (y' - y) <= 1 /\ Z.abs (x' - x) <= 1 /\
               in_shape m y' x' = true /\ member (get 0 m y' x') = true).
  { intros y x H. apply refine_member_inv in H. destruct H as [_ H].
    unfold opened_dilated, dilate in H. cbv [Nat.iter nat_rect] in H.
    apply dilate1_pos in H. destruct H as [_ [dy [dx [Hy [Hx H]]]]].
    apply (opening_inside m _ _ Hr) in H. destruct H as [Hin Hpos].
    exists (y + dy), (x + dx). repeat split; try lia; [exact Hin|].
    now apply pos_member. }
  split; [exact Hnear|].
  intros Hnone y x.
  destruct (member (get 0 (refine_mask m) y x)) eqn:Hm;
    [exfalso|now apply not_member_zero].
  destruct (Hnear y x Hm) as [y' [x' [_ [_ [_ Hm']]]]].
  rewrite Hnone in Hm'. discriminate Hm'.
Qed.

End RefineLocality.

(** ** What a background capture reads and keeps *)

(** The frames of the successful reads, in order. *)
Definition goods (reads : list (option Frame)) : list Frame :=
  flat_map (fun r => match r with Some f => [f] | None => [] end) reads.

Section CaptureTheorems.

Context {ops : ImageOps}.

Lemma countdown_loop_shown (l : list nat) :
  forall st,
    length (shown (fold_left countdown_step l st)) =
    (length (shown st) + length (goods (firstn (length l) (cap st))))%nat /\
    console (fold_left countdown_step l st) = console st.
Proof.
  induction l as [|i l IH]; intros st.
  - cbn. split; [lia|reflexivity].
  - cbn [fold_left length]. destruct (IH (countdown_step st i)) as [Hs Hc].
    rewrite Hs, Hc. unfold countdown_step, cap_read.
    destruct (cap st) as [|[frame|] rest] eqn:E.
    + rewrite E, firstn_nil. cbn. split; [lia|reflexivity].
    + cbn [firstn goods flat_map app length imshow set_cap shown cap console].
      fold (goods (firstn (length l) rest)). split; [lia|reflexivity].
    + cbn [firstn goods flat_map app length imshow set_cap shown cap console].
      fold (goods (firstn (length l) rest)). split; [lia|reflexivity].
Qed.

Lemma capture_loop_spec (num_frames : nat) (l : list nat) :
  forall st frames,
    exists st',
      fold_left (capture_step num_frames) l (st, frames)
      = (st', (frames ++ map flip1 (goods (firstn (length l) (cap st))))%list)
      /\ cap st' = skipn (length l) (cap st)
      /\ same_controls st' st
      /\ length (shown st') =
         (length (shown st) + length (goods (firstn (length l) (cap st))))%nat
      /\ console st' = console st.
Proof.
  induction l as [|i l IH]; intros st frames.
  - exists st. cbn. rewrite app_nil_r. repeat split. lia.
  - cbn [fold_left length]. unfold capture_step at 2, cap_read.
    destruct (cap st) as [|[frame|] rest] eqn:E.
    + destruct (IH st frames) as (st' & H1 & H2 & H3 & H4 & H5).
      rewrite E, firstn_nil in H1, H4. rewrite E, skipn_nil in H2.
      exists st'. rewrite skipn_nil, firstn_nil.
      repeat split; try assumption; apply H3.
    + destruct (IH (imshow (set_cap st rest)
                      (putText (flip1 frame)
                         ("Capturing: " ++ str (i + 1) ++ "/" ++ str num_frames)
                         (50, 50) 1 (0, 255, 0) 2))
                   (frames ++ [flip1 frame])%list)
        as (st' & H1 & H2 & H3 & H4 & H5).
      cbn [imshow set_cap cap shown console] in H1, H2, H4, H5.
      exists st'. cbn [firstn skipn goods flat_map map app length].
      rewrite <- app_assoc in H1. cbn [app] in H1.
      fold (goods (firstn (length l) rest)).
      split; [exact H1|]. split; [exact H2|].
      split; [apply (same_controls_trans _ _ _ H3); repeat split|].
      split; [cbn [length] in H4; lia|exact H5].
    + destruct (IH (set_cap st rest) frames) as (st' & H1 & H2 & H3 & H4 & H5).
      cbn [set_cap cap shown console] in H1, H2, H4, H5.
      exists st'. cbn [firstn skipn goods flat_map map app length].
      fold (goods (firstn (length l) rest)).
      split; [exact H1|]. split; [exact H2|].
      split; [apply (same_controls_trans _ _ _ H3); repeat split|].
      split; [exact H4|exact H5].
Qed.


Lemma capture_reads (st : Cloak) (num_frames : nat) :
  let st' := fst (capture_background st num_frames) in
  cap st' = skipn (60 + num_frames) (cap st) /\
  length (shown st') =
    (length (shown st)
     + length (goods (firstn 60 (cap st)))
     + length (goods (firstn num_frames (skipn 60 (cap st)))))%nat /\
  snd (capture_background st num_frames) =
    negb (Nat.eqb (length (goods (firstn num_frames (skipn 60 (cap st))))) 0).
Proof.
  unfold capture_background.
  set (st0 := print (print st _) _).
  destruct (countdown_loop_spec (seq 0 60) st0) as [Hc _].
  destruct (countdown_loop_shown (seq 0 60) st0) as [Hsh _].
  rewrite length_seq in Hc, Hsh.
  destruct (capture_loop_spec num_frames (seq 0 num_frames)
              (fold_left countdown_step (seq 0 60) st0) [])
    as (st1 & H1 & H2 & _ & H4 & _).
  rewrite length_seq, Hc in H1, H2, H4. rewrite Hsh in H4.
  change (cap st0) with (cap st) in H1, H2, H4.
  change (shown st0) with (shown st) in H4.
  cbn [app] in H1.
  rewrite skipn_skipn in H2. rewrite (Nat.add_comm 60 num_frames).
  set (G := goods (firstn num_frames (skipn 60 (cap st)))) in *.
  rewrite H1.
  destruct G as [|g G'];
    cbn [map fst snd print cap shown set_background length Nat.eqb negb];
    repeat split; auto.
Qed.


End CaptureTheorems.

(** ** Starting and stopping a recording *)

(** X6. From [Recording = false], with a frame available and a sink that
    opens, [toggle_recording] sets the flag and holds an open writer for
    [invisibility_cloak_<timestamp>.mp4] at 30 fps with the frame's
    dimensions.  From [Recording = true] it clears the flag and drops the
    writer without reading the camera.  Two toggles are not always a round
    trip: after a failed start the second toggle is a new start attempt and
    can leave the recording on. *)
Theorem toggle_recording_start_stop :
  (forall st frame rest,
      is_recording st = false ->
      cap st = Some frame :: rest ->
      sink_opens st ("invisibility_cloak_" ++ clock st ++ ".mp4")
                 (width frame, height frame) = true ->
      is_recording (toggle_recording st) = true /\
      video_writer (toggle_recording st) =
        Some {| vw_filename := "invisibility_cloak_" ++ clock st ++ ".mp4";
                vw_fps := 30;
                vw_size := (width frame, height frame);
                vw_opened := true;
                vw_frames := [] |} /\
      console (toggle_recording st) =
        ("⏺️  Recording started: "
           ++ ("invisibility_cloak_" ++ clock st ++ ".mp4")) :: console st) /\
  (forall st,
      is_recording st = true ->
      is_recording (toggle_recording st) = false /\
      video_writer (toggle_recording st) = None /\
      cap (toggle_recording st) = cap st /\
      shown (toggle_recording st) = shown st /\
      background (toggle_recording st) = background st /\
      console (toggle_recording st) = "⏹️  Recording stopped" :: console st) /\
  (forall st frame rest,
      is_recording st = false ->
      cap st = None :: Some frame :: rest ->
      sink_opens st ("invisibility_cloak_" ++ clock st ++ ".mp4")
                 (width frame, height frame) = true ->
      is_recording (toggle_recording st) = false /\
      is_recording (toggle_recording (toggle_recording st)) = true).
Proof.
  split; [|split].
  - intros st frame rest Hr Hc Hopen.
    unfold toggle_recording, cap_read. rewrite Hr, Hc. cbn [negb].
    cbn [shape set_video_writer video_writer VideoWriter_new vw_opened
         set_cap sink_opens clock].
    rewrite Hopen.
    cbn [set_is_recording print is_recording video_writer console
         set_video_writer VideoWriter_new set_cap sink_opens].
    unfold VideoWriter_new. cbn [sink_opens set_cap].
    rewrite Hopen. repeat split.
  - intros st Hr. unfold toggle_recording. rewrite Hr. cbn [negb].
    cbn [set_is_recording video_writer].
    destruct (video_writer st) eqn:E; cbn; rewrite ?E; repeat split.
  - intros st frame rest Hr Hc Hopen.
    assert (H1 : toggle_recording st
                 = print (set_cap st (Some frame :: rest))
                     "❌ Cannot start recording - no frame available").
    { unfold toggle_recording, cap_read. now rewrite Hr, Hc. }
    rewrite H1. split; [exact Hr|].
    unfold toggle_recording, cap_read.
    cbn [print set_cap is_recording cap clock]. rewrite Hr. cbn [negb].
    cbn [shape set_video_writer video_writer VideoWriter_new vw_opened
         set_cap sink_opens clock print].
    rewrite Hopen. reflexivity.
Qed.

(** ** The life of the slider window *)

Lemma assoc_destroyWindow (g : Gui) (win : string) :
  assoc (destroyWindow g win) win = None.
Proof.
  unfold destroyWindow. induction g as [|[k v] g IH]; [reflexivity|].
  cbn [filter fst]. destruct (String.eqb k win) eqn:E; cbn [negb].
  - exact IH.
  - cbn [assoc]. now rewrite E.
Qed.

Lemma destroyWindow_absent (g : Gui) (win : string) :
  assoc g win = None -> destroyWindow g win = g.
Proof.
  unfold destroyWindow. induction g as [|[k v] g IH]; [reflexivity|].
  cbn [assoc filter fst]. destruct (String.eqb k win); [discriminate|].
  intros H. cbn [negb]. now rewrite IH.
Qed.

(** X7. Starting from a fresh tuner and a screen without its window: the
    first toggle creates the window with six sliders at their defaults, so
    that the range read back is the first red range; the second toggle
    destroys the window but leaves [is_initialized] set; the third toggle
    therefore makes the tuner active again without creating any window. *)
Theorem tuner_window_created_once (g : Gui) :
  assoc g "HSV Tuner" = None ->
  let tg1 := toggle HSVTuner_init g in
  let tg2 := toggle (fst tg1) (snd tg1) in
  let tg3 := toggle (fst tg2) (snd tg2) in
  (is_active (fst tg1) = true /\
   assoc (snd tg1) "HSV Tuner"
     = Some [ ("V_Max", 255); ("S_Max", 255); ("H_Max", 10);
              ("V_Min", 70); ("S_Min", 120); ("H_Min", 0) ] /\
   get_hsv_range (fst tg1) (snd tg1)
     = Some ((0, 120, 70), (10, 255, 255))) /\
  (is_active (fst tg2) = false /\
   is_initialized (fst tg2) = true /\
   assoc (snd tg2) "HSV Tuner" = None /\
   get_hsv_range (fst tg2) (snd tg2) = None) /\
  (is_active (fst tg3) = true /\
   is_initialized (fst tg3) = true /\
   snd tg3 = snd tg2 /\
   assoc (snd tg3) "HSV Tuner" = None).
Proof.
  intros Hg tg1 tg2 tg3.
  assert (E1 : tg1 =
               ({| window_name := "HSV Tuner"; is_active := true;
                   is_initialized := true |},
                ("HSV Tuner",
                 [ ("V_Max", 255); ("S_Max", 255); ("H_Max", 10);
                   ("V_Min", 70); ("S_Min", 120); ("H_Min", 0) ])
                  :: fold_left
                       (fun g0 '(name, _, default) =>
                          createTrackbar g0 name "HSV Tuner" default)
                       trackbars g)).
  { unfold tg1, toggle, _create_window, namedWindow.
    cbn [HSVTuner_init window_name is_active is_initialized negb andb].
    rewrite Hg. reflexivity. }
  assert (E2 : tg2 =
               ({| window_name := "HSV Tuner"; is_active := false;
                   is_initialized := true |},
                destroyWindow (snd tg1) "HSV Tuner")).
  { unfold tg2. rewrite E1. reflexivity. }
  assert (E3 : tg3 =
               ({| window_name := "HSV Tuner"; is_active := true;
                   is_initialized := true |},
                destroyWindow (snd tg1) "HSV Tuner")).
  { unfold tg3. rewrite E2. reflexivity. }
  split; [|split].
  - rewrite E1. repeat split.
  - rewrite E2. cbn [fst snd is_active is_initialized].
    repeat split. apply assoc_destroyWindow.
  - rewrite E3, E2. cbn [fst snd is_active is_initialized].
    repeat split. apply assoc_destroyWindow.
Qed.

(** ** The FPS counter keeps the latest frame times *)

(** The last [n] elements of a list. *)
Definition lastn {A} (n : nat) (l : list A) : list A :=
  skipn (length l - n) l.

Lemma lastn_app_lastn {A} (n : nat) (a b : list A) :
  lastn n (lastn n a ++ b) = lastn n (a ++ b).
Proof.
  unfold lastn. rewrite !length_app, length_skipn.
  set (k := (length a - n)%nat).
  assert (E : (skipn k a ++ b)%list = skipn k (a ++ b)%list).
  { rewrite skipn_app. replace (k - length a)%nat with 0%nat by lia.
    reflexivity. }
  rewrite E, skipn_skipn. f_equal. lia.
Qed.

Lemma length_lastn {A} (n : nat) (l : list A) :
  length (lastn n l) = Nat.min n (length l).
Proof. unfold lastn. rewrite length_skipn. lia. Qed.

Section FPSTheorems.

Context {fl : FloatOps}.

(** The differences between consecutive readings. *)
Fixpoint frame_time_diffs (prev : pyfloat) (ts : list pyfloat)
  : list pyfloat :=
  match ts with
  | [] => []
  | t :: rest => f_sub t prev :: frame_time_diffs t rest
  end.

Lemma length_frame_time_diffs (prev : pyfloat) (ts : list pyfloat) :
  length (frame_time_diffs prev ts) = length ts.
Proof.
  revert prev. induction ts as [|t ts IH]; intros prev; [reflexivity|].
  cbn. now rewrite IH.
Qed.

Lemma last_cons_default {A} (l : list A) (a d d' : A) :
  last (a :: l) d = last (a :: l) d'.
Proof.
  revert a. induction l as [|b l IH]; intros a; [reflexivity|].
  change (last (b :: l) d = last (b :: l) d'). apply IH.
Qed.

Lemma updates_spec (ts : list pyfloat) :
  forall (c : FPSCounter) (t : pyfloat),
    last_time c = Some t ->
    (length (frame_times c) <= buffer_size c)%nat ->
    let c' := fold_left update ts c in
    buffer_size c' = buffer_size c /\
    frame_times c' =
      lastn (buffer_size c) (frame_times c ++ frame_time_diffs t ts) /\
    last_time c' = Some (last ts t).
Proof.
  induction ts as [|t' ts IH]; intros c t Hl Hlen; cbn zeta.
  - cbn [fold_left frame_time_diffs last]. rewrite app_nil_r.
    split; [reflexivity|]. split; [|exact Hl].
    unfold lastn.
    replace (length (frame_times c) - buffer_size c)%nat with 0%nat by lia.
    reflexivity.
  - cbn [fold_left].
    assert (Hu : frame_times (update c t')
                 = lastn (buffer_size c) (frame_times c ++ [f_sub t' t])).
    { unfold update. rewrite Hl. reflexivity. }
    destruct (IH (update c t') t' eq_refl) as (Hb & Hf & Hlast).
    { rewrite Hu, length_lastn. cbn [update buffer_size]. lia. }
    split; [exact Hb|]. split.
    + rewrite Hf, Hu. cbn [update buffer_size frame_time_diffs].
      rewrite lastn_app_lastn, <- app_assoc. reflexivity.
    + rewrite Hlast. destruct ts as [|a ts']; [reflexivity|].
      f_equal. change (last (a :: ts') t' = last (a :: ts') t).
      apply last_cons_default.
Qed.

Lemma fps_latest (n : nat) (t0 : pyfloat)
    (ts : list pyfloat) :
  let c := fold_left update ts (update (FPSCounter_init n) t0) in
  frame_times c = lastn n (frame_time_diffs t0 ts) /\
  length (frame_times c) = Nat.min n (length ts) /\
  last_time c = Some (last ts t0).
Proof.
  cbn zeta.
  destruct (updates_spec ts (update (FPSCounter_init n) t0) t0 eq_refl)
    as (_ & Hf & Hl).
  { cbn. lia. }
  cbn [update FPSCounter_init buffer_size frame_times last_time app] in Hf.
  split; [exact Hf|]. split; [|exact Hl].
  rewrite Hf, length_lastn, length_frame_time_diffs. reflexivity.
Qed.

(** X8. After a first reading [t0] and further readings [ts], the counter
    holds the differences between consecutive readings, the latest
    [buffer_size] of them at most and in order; the first reading records no
    frame time. *)
Theorem fps_counter_keeps_latest (n : nat) (t0 : pyfloat)
    (ts : list pyfloat) :
  let c := fold_left update ts (update (FPSCounter_init n) t0) in
  frame_times c = lastn n (frame_time_diffs t0 ts) /\
  length (frame_times c) = Nat.min n (length ts) /\
  last_time c = Some (last ts t0).
Proof.
  destruct (fps_latest n t0 ts) as (Htimes & Hlen & Hlast).
  split; [exact Htimes|]. split; [exact Hlen|exact Hlast].
Qed.

(** X9. [get_fps] is [0.0] for a fresh counter, after a single update, and
    for a counter whose buffer size is zero however often it is updated: a
    rate is reported only from the second update on. *)
Theorem get_fps_needs_two_updates :
  (forall n, get_fps (FPSCounter_init n) = f_zero) /\
  (forall n t, get_fps (update (FPSCounter_init n) t) = f_zero) /\
  (forall t0 ts,
      get_fps (fold_left update ts (update (FPSCounter_init 0) t0)) = f_zero).
Proof.
  split; [reflexivity|]. split; [reflexivity|].
  intros t0 ts. unfold get_fps.
  destruct (fps_latest 0 t0 ts) as (_ & Hlen & _).
  cbn zeta in Hlen.
  destruct (frame_times _); [reflexivity|discriminate Hlen].
Qed.

End FPSTheorems.

(** ** Saving the slider range *)

Lemma assoc_filter_other {V} (l : list (string * V)) (k other : string) :
  other <> k ->
  assoc (filter (fun e => negb (String.eqb (fst e) k)) l) other
  = assoc l other.
Proof.
  intros Hne. induction l as [|[k' v] l IH]; [reflexivity|].
  cbn [filter fst assoc].
  destruct (String.eqb k' k) eqn:E; cbn [negb].
  - apply String.eqb_eq in E. subst k'.
    destruct (String.eqb k other) eqn:E'; [|exact IH].
    apply String.eqb_eq in E'. congruence.
  - cbn [assoc]. now rewrite IH.
Qed.

Lemma forallb_trackbars (bars : list (string * Z)) :
  forallb
    (fun '(name, max_val, default) =>
       match assoc bars name with Some _ => true | None => false end)
    trackbars = true ->
  exists h_min s_min v_min h_max s_max v_max,
    assoc bars "H_Min" = Some h_min /\ assoc bars "S_Min" = Some s_min /\
    assoc bars "V_Min" = Some v_min /\ assoc bars "H_Max" = Some h_max /\
    assoc bars "S_Max" = Some s_max /\ assoc bars "V_Max" = Some v_max.
Proof.
  unfold trackbars. cbn [forallb]. rewrite !andb_true_iff.
  destruct (assoc bars "H_Min") as [h_min|]; [|intros [[=] _]].
  destruct (assoc bars "S_Min") as [s_min|]; [|intros (_ & [=] & _)].
  destruct (assoc bars "V_Min") as [v_min|]; [|intros (_ & _ & [=] & _)].
  destruct (assoc bars "H_Max") as [h_max|]; [|intros (_ & _ & _ & [=] & _)].
  destruct (assoc bars "S_Max") as [s_max|];
    [|intros (_ & _ & _ & _ & [=] & _)].
  destruct (assoc bars "V_Max") as [v_max|];
    [|intros (_ & _ & _ & _ & _ & [=] & _)].
  intros _. now exists h_min, s_min, v_min, h_max, s_max, v_max.
Qed.

(** With the six sliders on screen an active, initialized tuner yields the
    positions they show. *)
Lemma get_hsv_range_positions (t : HSVTuner) (g : Gui) :
  is_active t = true -> is_initialized t = true ->
  sliders_on_screen g (window_name t) = true ->
  exists bars h_min s_min v_min h_max s_max v_max,
    assoc g (window_name t) = Some bars /\
    assoc bars "H_Min" = Some h_min /\ assoc bars "S_Min" = Some s_min /\
    assoc bars "V_Min" = Some v_min /\ assoc bars "H_Max" = Some h_max /\
    assoc bars "S_Max" = Some s_max /\ assoc bars "V_Max" = Some v_max /\
    get_hsv_range t g = Some ((h_min, s_min, v_min), (h_max, s_max, v_max)).
Proof.
  intros Ha Hi. unfold sliders_on_screen, get_hsv_range, getTrackbarPos.
  rewrite Ha, Hi. cbn [negb orb].
  destruct (assoc g (window_name t)) as [bars|]; [|discriminate].
  intros Hall.
  destruct (forallb_trackbars bars Hall)
    as (h_min & s_min & v_min & h_max & s_max & v_max
        & E1 & E2 & E3 & E4 & E5 & E6).
  exists bars, h_min, s_min, v_min, h_max, s_max, v_max.
  rewrite E1, E2, E3, E4, E5, E6. repeat split.
Qed.

Lemma assoc_write_file (d : Disk) (filename : string) (c : Content) :
  assoc (files (write_file d filename c)) filename = Some c /\
  forall other, other <> filename ->
    assoc (files (write_file d filename c)) other = assoc (files d) other.
Proof.
  cbn [write_file files assoc]. rewrite String.eqb_refl.
  split; [reflexivity|]. intros other Hne.
  destruct (String.eqb filename other) eqn:E.
  - apply String.eqb_eq in E. congruence.
  - now apply assoc_filter_other.
Qed.

(** X10. Whenever an active tuner has its sliders on screen,
    [save_settings] returns [True] exactly when the tuner is active and
    initialized, the file can be opened, and the write and the close go
    through.  It then prints the confirmation and leaves in the file the
    record whose only range is the positions the six sliders show, with the
    description and the timestamp.  With an inactive or uninitialized tuner
    it returns [False], prints nothing and leaves the disk as it was.  When
    the file cannot be opened it reports the error and leaves the disk as it
    was.  When the write fails after the file was opened it reports the
    error and the file is left incomplete: a failed save can destroy the
    settings saved before.  No other file is touched in any case. *)
Theorem save_settings_spec (t : HSVTuner) (g : Gui) (now : string)
    (d : Disk) (filename : string) :
  (is_active t = true -> is_initialized t = true ->
   sliders_on_screen g (window_name t) = true) ->
  let r := save_settings t g now d filename in
  (fst (fst r) = true <->
   is_active t = true /\ is_initialized t = true /\
   open_error d filename = None /\ dump_error d filename = None) /\
  (is_active t = false \/ is_initialized t = false -> r = (false, d, [])) /\
  (forall e,
      is_active t = true -> is_initialized t = true ->
      open_error d filename = Some e ->
      r = (false, d, ["❌ Failed to save settings: " ++ e])) /\
  (forall e,
      is_active t = true -> is_initialized t = true ->
      open_error d filename = None -> dump_error d filename = Some e ->
      fst (fst r) = false /\
      snd r = ["❌ Failed to save settings: " ++ e] /\
      assoc (files (snd (fst r))) filename = Some Partial) /\
  (fst (fst r) = true ->
   exists bars h_min s_min v_min h_max s_max v_max,
     assoc g (window_name t) = Some bars /\
     assoc bars "H_Min" = Some h_min /\ assoc bars "S_Min" = Some s_min /\
     assoc bars "V_Min" = Some v_min /\ assoc bars "H_Max" = Some h_max /\
     assoc bars "S_Max" = Some s_max /\ assoc bars "V_Max" = Some v_max /\
     snd r = ["✅ HSV settings saved to " ++ filename] /\
     assoc (files (snd (fst r))) filename =
       Some (Document
               (JDict
                  [ ("custom",
                     JDict
                       [ ("ranges",
                          JList
                            [JList
                               [JList [JInt h_min; JInt s_min; JInt v_min];
                                JList [JInt h_max; JInt s_max; JInt v_max]]]);
                         ("description", JStr "Custom HSV range");
                         ("timestamp", JStr now) ]) ]))) /\
  (forall other, other <> filename ->
                 assoc (files (snd (fst r))) other = assoc (files d) other).
Proof.
  intros Hon. cbn zeta. unfold save_settings.
  destruct (is_active t) eqn:Ha; [destruct (is_initialized t) eqn:Hi|].
  - destruct (get_hsv_range_positions t g Ha Hi (Hon eq_refl eq_refl))
      as (bars & h_min & s_min & v_min & h_max & s_max & v_max
          & Eb & E1 & E2 & E3 & E4 & E5 & E6 & Hr).
    rewrite Hr.
    destruct (open_error d filename) as [e|] eqn:Ho;
      [|destruct (dump_error d filename) as [e|] eqn:Hd]; cbn [fst snd].
    + split; [split; [discriminate|intros (_ & _ & [=] & _)]|].
      split; [intros [[=]|[=]]|].
      split; [intros e' _ _ [= <-]; reflexivity|].
      split; [intros e' _ _ [=]|]. split; [discriminate|reflexivity].
    + destruct (assoc_write_file d filename Partial) as [Hf Hother].
      split; [split; [discriminate|intros (_ & _ & _ & [=])]|].
      split; [intros [[=]|[=]]|].
      split; [intros e' _ _ [=]|].
      split; [intros e' _ _ _ [= <-]; now repeat split|].
      split; [discriminate|exact Hother].
    + destruct (assoc_write_file d filename
                  (Document
                     (JDict
                        [ ("custom",
                           JDict
                             [ ("ranges",
                                JList
                                  [JList [tolist (h_min, s_min, v_min);
                                          tolist (h_max, s_max, v_max)]]);
                               ("description", JStr "Custom HSV range");
                               ("timestamp", JStr now) ]) ])))
        as [Hf Hother].
      split; [split; [now intros _|reflexivity]|].
      split; [intros [[=]|[=]]|].
      split; [intros e' _ _ [=]|].
      split; [intros e' _ _ _ [=]|].
      split; [|exact Hother].
      intros _. exists bars, h_min, s_min, v_min, h_max, s_max, v_max.
      repeat (split; [assumption|]). split; [reflexivity|exact Hf].
  - assert (Hr : get_hsv_range t g = None).
    { unfold get_hsv_range. rewrite Ha, Hi. reflexivity. }
    rewrite Hr. cbn [fst snd].
    split; [split; [discriminate|intros (_ & [=] & _)]|].
    split; [reflexivity|].
    split; [intros e' _ [=]|]. split; [intros e' _ [=]|].
    split; [discriminate|reflexivity].
  - assert (Hr : get_hsv_range t g = None).
    { unfold get_hsv_range. rewrite Ha. reflexivity. }
    rewrite Hr. cbn [fst snd].
    split; [split; [discriminate|intros ([=] & _)]|].
    split; [reflexivity|].
    split; [intros e' [=]|]. split; [intros e' [=]|].
    split; [discriminate|reflexivity].
Qed.

(** ** The colours of the status lines *)

Section HudTheorems.

Context {ops : ImageOps} {fl : FloatOps} {hud : HudOps}.


End HudTheorems.

(** ** Invariants of the main loop *)

(** What holds of the session in every state the loop reaches. *)
Definition session_inv (st : Cloak) : Prop :=
  (current_color_index st < 4)%nat /\
  (is_recording st = true ->
   exists w, video_writer st = Some w /\ vw_opened w = true) /\
  (is_recording st = false -> video_writer st = None) /\
  (is_active (hsv_tuner st) = true -> is_initialized (hsv_tuner st) = true).

(** The frames handed to the current writer. *)
Definition recorded (st : Cloak) : list Frame :=
  match video_writer st with
  | Some w => vw_frames w
  | None => []
  end.

(** [l1] is [l2] with some elements left out. *)
Inductive sublist {A : Type} : list A -> list A -> Prop :=
| sublist_nil (whole : list A) : sublist [] whole
| sublist_cons (f : A) (part whole : list A) :
    sublist part whole -> sublist (f :: part) (f :: whole)
| sublist_skip (f : A) (part whole : list A) :
    sublist part whole -> sublist part (f :: whole).

Lemma sublist_app_l {A} (new l1 l2 : list A) :
  sublist l1 l2 -> sublist l1 (new ++ l2).
Proof.
  intros H. induction new as [|x new IH]; [exact H|].
  cbn [app]. now apply sublist_skip.
Qed.

Definition outcome_app {fl : FloatOps} (o : Outcome) : App :=
  match o with
  | Next app => app
  | Stop app => app
  | Crash app _ => app
  end.

Lemma shape_flip1 (frame : Frame) : shape (flip1 frame) = shape frame.
Proof.
  unfold shape, height, width, flip1. rewrite length_map.
  destruct frame as [|row frame]; [reflexivity|].
  cbn [map hd]. now rewrite length_rev.
Qed.

Section LoopLemmas.

Context {ops : ImageOps}.

Lemma countdown_loop_shown_app (l : list nat) :
  forall st, exists new,
    shown (fold_left countdown_step l st) = (new ++ shown st)%list.
Proof.
  induction l as [|i l IH]; intros st; [now exists []|].
  cbn [fold_left]. destruct (IH (countdown_step st i)) as [new Hn].
  rewrite Hn. unfold countdown_step, cap_read.
  destruct (cap st) as [|[frame|] rest].
  - now exists new.
  - cbn [imshow shown set_cap]. eexists (new ++ [_])%list.
    now rewrite <- app_assoc.
  - now exists new.
Qed.

Lemma capture_loop_shown_app (num_frames : nat) (l : list nat) :
  forall st frames, exists new,
    shown (fst (fold_left (capture_step num_frames) l (st, frames)))
    = (new ++ shown st)%list.
Proof.
  induction l as [|i l IH]; intros st frames; [now exists []|].
  cbn [fold_left]. unfold capture_step at 2, cap_read.
  destruct (cap st) as [|[frame|] rest].
  - apply IH.
  - destruct (IH (imshow (set_cap st rest)
                    (putText (flip1 frame)
                       ("Capturing: " ++ str (i + 1) ++ "/" ++ str num_frames)
                       (50, 50) 1 (0, 255, 0) 2))
                 (frames ++ [flip1 frame])%list) as [new Hn].
    rewrite Hn. cbn [imshow shown set_cap]. eexists (new ++ [_])%list.
    now rewrite <- app_assoc.
  - destruct (IH (set_cap st rest) frames) as [new Hn].
    rewrite Hn. now exists new.
Qed.

(** A capture changes the plate, the camera, the display and the console,
    and nothing else; it only adds to what was shown. *)
Lemma capture_background_frame (st : Cloak) (num_frames : nat) :
  let st' := fst (capture_background st num_frames) in
  hsv_tuner st' = hsv_tuner st /\
  video_writer st' = video_writer st /\
  is_recording st' = is_recording st /\
  current_color_index st' = current_color_index st /\
  (exists new, shown st' = (new ++ shown st)%list) /\
  (length (cap st') <= length (cap st))%nat.
Proof.
  cbn zeta.
  pose proof (capture_reads st num_frames) as (Hcap & _ & _).
  cbn zeta in Hcap.
  assert (Hlen : (length (cap (fst (capture_background st num_frames)))
                  <= length (cap st))%nat)
    by (rewrite Hcap, length_skipn; lia).
  clear Hcap. revert Hlen. unfold capture_background.
  set (st0 := print (print st _) _).
  destruct (countdown_loop_spec (seq 0 60) st0) as [_ Hs].
  destruct (countdown_loop_shown_app (seq 0 60) st0) as [new1 Hn1].
  destruct (capture_loop_spec num_frames (seq 0 num_frames)
              (fold_left countdown_step (seq 0 60) st0) [])
    as (st1 & H1 & _ & H3 & _ & _).
  destruct (capture_loop_shown_app num_frames (seq 0 num_frames)
              (fold_left countdown_step (seq 0 60) st0) []) as [new2 Hn2].
  cbn [app] in H1. rewrite H1 in Hn2 |- *. cbn [fst] in Hn2.
  rewrite Hn1 in Hn2.
  change (shown st0) with (shown st) in Hn2.
  destruct H3 as (_ & T & W & R & I). destruct Hs as (_ & T0 & W0 & R0 & I0).
  change (hsv_tuner st0) with (hsv_tuner st) in T0.
  change (video_writer st0) with (video_writer st) in W0.
  change (is_recording st0) with (is_recording st) in R0.
  change (current_color_index st0) with (current_color_index st) in I0.
  intros Hlen.
  assert (Hshown : exists new, shown st1 = (new ++ shown st)%list).
  { exists (new2 ++ new1)%list. now rewrite <- app_assoc. }
  destruct (map flip1 _) as [|s samples];
    cbn [fst print set_background hsv_tuner video_writer is_recording
         current_color_index shown cap] in Hlen |- *;
    repeat split; try congruence; try exact Hshown; exact Hlen.
Qed.

(** The two loops of a capture advance the camera and add to what was
    shown; they leave the plate and the controls alone. *)
Lemma capture_frames_frame (st : Cloak) (num_frames : nat) :
  let st' := fst (capture_frames st num_frames) in
  background st' = background st /\
  hsv_tuner st' = hsv_tuner st /\
  video_writer st' = video_writer st /\
  is_recording st' = is_recording st /\
  current_color_index st' = current_color_index st /\
  (exists new, shown st' = (new ++ shown st)%list) /\
  (length (cap st') <= length (cap st))%nat.
Proof.
  cbn zeta. unfold capture_frames.
  set (st0 := print (print st _) _).
  destruct (countdown_loop_spec (seq 0 60) st0) as [Hc Hs].
  destruct (countdown_loop_shown_app (seq 0 60) st0) as [new1 Hn1].
  destruct (capture_loop_spec num_frames (seq 0 num_frames)
              (fold_left countdown_step (seq 0 60) st0) [])
    as (st1 & H1 & H2 & H3 & _ & _).
  destruct (capture_loop_shown_app num_frames (seq 0 num_frames)
              (fold_left countdown_step (seq 0 60) st0) []) as [new2 Hn2].
  cbn [app] in H1. rewrite H1 in Hn2 |- *. cbn [fst] in Hn2 |- *.
  rewrite Hn1 in Hn2.
  change (shown st0) with (shown st) in Hn2.
  destruct H3 as (B & T & W & R & I). destruct Hs as (B0 & T0 & W0 & R0 & I0).
  change (background st0) with (background st) in B0.
  change (hsv_tuner st0) with (hsv_tuner st) in T0.
  change (video_writer st0) with (video_writer st) in W0.
  change (is_recording st0) with (is_recording st) in R0.
  change (current_color_index st0) with (current_color_index st) in I0.
  repeat split; try congruence.
  - exists (new2 ++ new1)%list. now rewrite <- app_assoc.
  - rewrite H2, Hc, !length_skipn. change (cap st0) with (cap st). lia.
Qed.

Lemma toggle_recording_frame (st : Cloak) :
  session_inv st ->
  session_inv (toggle_recording st) /\
  shown (toggle_recording st) = shown st /\
  (length (cap (toggle_recording st)) <= length (cap st))%nat /\
  sublist (recorded (toggle_recording st)) (shown (toggle_recording st)).
Proof.
  intros (Hi & Hon & Hoff & Ht). unfold toggle_recording, cap_read.
  destruct (is_recording st) eqn:Hr; cbn [negb].
  - cbn [set_is_recording video_writer].
    destruct (video_writer st) eqn:Hw;
      unfold session_inv, recorded; cbn; rewrite ?Hw;
      (repeat split; try assumption; try discriminate; try lia;
       try apply sublist_nil).
  - specialize (Hoff eq_refl).
    destruct (cap st) as [|[frame|] rest] eqn:Hc.
    + unfold session_inv, recorded; cbn; rewrite ?Hr, ?Hoff, ?Hc; cbn;
        (repeat split; try assumption; try discriminate; try lia;
         try apply sublist_nil).
    + cbn [shape set_video_writer video_writer VideoWriter_new vw_opened
           set_cap sink_opens clock].
      destruct (sink_opens st _ _) eqn:Ho;
        unfold session_inv, recorded; cbn; rewrite ?Hr, ?Hoff;
        (repeat split; try assumption; try discriminate; try lia;
         try apply sublist_nil).
      intros _. eexists. split; [reflexivity|]. cbn. exact Ho.
    + unfold session_inv, recorded; cbn; rewrite ?Hr, ?Hoff;
        (repeat split; try assumption; try discriminate; try lia;
         try apply sublist_nil).
Qed.

End LoopLemmas.

Section LoopTheorems.

Context {ops : ImageOps} {fl : FloatOps} {hud : HudOps}.

Lemma toggle_recording_cap (st : Cloak) :
  (length (cap (toggle_recording st)) <= length (cap st))%nat.
Proof.
  unfold toggle_recording, cap_read.
  destruct (is_recording st); cbn [negb].
  - cbn [set_is_recording video_writer].
    destruct (video_writer st); cbn; lia.
  - destruct (cap st) as [|[frame|] rest] eqn:Hc.
    + cbn. rewrite Hc. cbn. lia.
    + cbn [shape set_video_writer video_writer VideoWriter_new vw_opened
           set_cap sink_opens clock].
      destruct (sink_opens st _ _); cbn; lia.
    + cbn. lia.
Qed.

Lemma save_settings_lines (t : HSVTuner) (g : Gui) (now : string) (d : Disk)
    (filename : string) :
  exists lines, snd (save_settings t g now d filename) = lines /\
                (lines = [] \/ exists line, lines = [line]).
Proof.
  unfold save_settings.
  destruct (get_hsv_range t g) as [[lower upper]|]; [|exists []; auto].
  destruct (open_error d filename); [|destruct (dump_error d filename)];
    eexists; (split; [reflexivity|]); right; eexists; reflexivity.
Qed.

(** The dispatch keeps the invariant and the recording inside the display,
    however it ends. *)
Lemma handle_key_frame (input : TickInput) (key : Z) (app : App) :
  session_inv (cloak app) ->
  let o := handle_key input key app in
  session_inv (cloak (outcome_app o)) /\
  (sublist (recorded (cloak app)) (shown (cloak app)) ->
   sublist (recorded (cloak (outcome_app o)))
           (shown (cloak (outcome_app o)))).
Proof.
  intros Hinv. cbn zeta. unfold handle_key.
  destruct (key_in key [113; 81; 27]);
    [cbn [outcome_app]; split; [exact Hinv|trivial]|].
  destruct (key_in key [98; 66]).
  { pose proof (capture_frames_frame (cloak app) 30) as Hf. cbn zeta in Hf.
    destruct (capture_frames (cloak app) 30) as [st' frames].
    cbn [fst] in Hf. destruct Hinv as (Hi & Hon & Hoff & Ht).
    destruct (stackable frames); cbn [outcome_app with_cloak cloak].
    - destruct (capture_background_frame (cloak app) 30)
        as (T & W & R & I & [new Hn] & _).
      split.
      + unfold session_inv. rewrite T, W, R, I. repeat split; assumption.
      + intros Hsub. unfold recorded. rewrite W, Hn. now apply sublist_app_l.
    - destruct Hf as (_ & T & W & R & I & [new Hn] & _).
      split.
      + unfold session_inv. rewrite T, W, R, I. repeat split; assumption.
      + intros Hsub. unfold recorded. rewrite W, Hn. now apply sublist_app_l. }
  destruct (key_in key [114; 82]).
  { cbn [outcome_app with_cloak cloak].
    destruct (toggle_recording_frame (cloak app) Hinv) as (H1 & _ & _ & H4).
    split; [exact H1|intros _; exact H4]. }
  destruct (key_in key [99; 67]).
  { destruct (cycle_color_step (cloak app))
      as (st' & E & _ & I & _ & S & _ & _ & T & W & R).
    rewrite E. cbn [outcome_app with_cloak cloak].
    destruct Hinv as (Hi & Hon & Hoff & Ht).
    split.
    - unfold session_inv. rewrite T, W, R. repeat split; assumption.
    - unfold recorded. now rewrite W, S. }
  destruct (key_in key [116; 84]).
  { destruct Hinv as (Hi & Hon & Hoff & Ht).
    destruct (toggle_raises _ _) eqn:Er; cbn [outcome_app with_cloak cloak];
      (split; [|trivial]);
      unfold session_inv; cbn [set_tuner current_color_index is_recording
                               video_writer hsv_tuner fst];
      repeat split; try assumption.
    - cbn [is_active is_initialized]. intros _. apply Ht.
      unfold toggle_raises in Er.
      destruct (is_active (hsv_tuner (cloak app))); [reflexivity|].
      discriminate Er.
    - apply toggle_active_initialized. }
  destruct (key_in key [115; 83]).
  { destruct (get_hsv_range_raises _ _);
      [cbn [outcome_app]; split; [exact Hinv|trivial]|].
    destruct (save_settings_lines (hsv_tuner (cloak app)) (gui (cloak app))
                (now_iso input) (disk app) "custom_hsv.json")
      as [lines [El Hl]].
    destruct (save_settings _ _ _ _ _) as [[ok d] lines'].
    cbn [snd] in El. subst lines'. cbn [outcome_app cloak].
    destruct Hl as [-> | [line ->]]; cbn [fold_left];
      (split; [exact Hinv|trivial]). }
  destruct (key =? 32).
  { cbn [outcome_app with_cloak cloak]. split; [exact Hinv|trivial]. }
  cbn [outcome_app]. split; [exact Hinv|trivial].
Qed.

Lemma record_frame_frame (st : Cloak) (frame : Frame) :
  session_inv st ->
  session_inv (record_frame (imshow st frame) frame) /\
  (sublist (recorded st) (shown st) ->
   sublist (recorded (record_frame (imshow st frame) frame))
           (shown (record_frame (imshow st frame) frame))).
Proof.
  intros (Hi & Hon & Hoff & Ht). unfold record_frame.
  cbn [imshow is_recording video_writer].
  destruct (is_recording st) eqn:Hr.
  - destruct (Hon eq_refl) as [w [Hw Ho]]. rewrite Hw.
    unfold session_inv, recorded in *. cbn. rewrite Hw.
    rewrite Hr. repeat split; try assumption; try discriminate.
    + intros _. eexists. split; [reflexivity|exact Ho].
    + intros Hsub. now apply sublist_cons.
  - unfold session_inv, recorded in *. cbn. rewrite Hr.
    repeat split; try assumption. intros Hsub. now apply sublist_skip.
Qed.

Lemma loop_body_frame (input : TickInput) (app : App) :
  session_inv (cloak app) ->
  let o := loop_body input app in
  session_inv (cloak (outcome_app o)) /\
  (sublist (recorded (cloak app)) (shown (cloak app)) ->
   sublist (recorded (cloak (outcome_app o)))
           (shown (cloak (outcome_app o)))).
Proof.
  intros Hinv. cbn zeta. unfold loop_body, cap_read.
  destruct (cap (cloak app)) as [|[frame|] rest];
    [now split| |now split].
  assert (Hinv' : session_inv (set_cap (cloak app) rest)) by exact Hinv.
  destruct (andb _ _); [now split|].
  destruct (apply_invisibility_effect _ _) as [processed|e];
    [|now split].
  cbn [fps_counter].
  destruct (draw_hud _ _ _) as [drawn|e]; [|now split].
  destruct (record_frame_frame _ drawn Hinv') as [H1 H2].
  destruct (handle_key_frame input (Z.land (waitKey input) 255)
              (with_cloak
                 {| cloak := set_cap (cloak app) rest;
                    fps_counter := update (fps_counter app)
                                          (perf_counter input);
                    disk := disk app |}
                 (record_frame (imshow (set_cap (cloak app) rest) drawn)
                               drawn)) H1) as (H3 & H4).
  split; [exact H3|]. intros Hsub. apply H4. now apply H2.
Qed.

Lemma main_loop_frame (inputs : list TickInput) :
  forall app,
    session_inv (cloak app) ->
    session_inv (cloak (fst (main_loop inputs app))) /\
    (sublist (recorded (cloak app)) (shown (cloak app)) ->
     sublist (recorded (cloak (fst (main_loop inputs app))))
             (shown (cloak (fst (main_loop inputs app))))).
Proof.
  induction inputs as [|input inputs IH]; intros app Hinv;
    [now split|].
  cbn [main_loop].
  destruct (loop_body_frame input app Hinv) as [H1 H2].
  destruct (loop_body input app) as [a|a|a e]; cbn [outcome_app] in H1, H2.
  - destruct (IH a H1) as [H3 H4]. split; [exact H3|]. intros Hsub.
    apply H4. now apply H2.
  - now split.
  - now split.
Qed.

Lemma session_inv_init (camera : list (option Frame)) (g : Gui)
    (now : string) (opens : string -> nat * nat -> bool) :
  session_inv (Cloak_init camera g now opens).
Proof.
  unfold session_inv. cbn. repeat split; try discriminate. lia.
Qed.

(** X12. The session invariant holds at start-up and after every pass of
    the main loop, whatever keys are pressed and however the pass ends: the
    colour index names a preset, the recording flag is set exactly when an
    open writer is held, and an active tuner is initialized. *)
Theorem main_loop_invariant :
  (forall camera g now opens, session_inv (Cloak_init camera g now opens)) /\
  (forall input app,
      session_inv (cloak app) ->
      session_inv (cloak (outcome_app (loop_body input app)))) /\
  (forall inputs camera g now opens c d,
      session_inv
        (cloak (fst (main_loop inputs
                       {| cloak := Cloak_init camera g now opens;
                          fps_counter := c; disk := d |})))).
Proof.
  split; [exact session_inv_init|]. split.
  - intros input app Hinv. now apply loop_body_frame.
  - intros inputs camera g now opens c d.
    apply main_loop_frame. cbn [cloak]. apply session_inv_init.
Qed.

(** X13. Every frame handed to the video writer was shown on the display,
    in the same order: a pass keeps the frames of the current writer a
    sub-sequence of the displayed frames, so from start-up on the recording
    never holds a frame that was not displayed. *)
Theorem recording_within_display :
  (forall input app,
      session_inv (cloak app) ->
      sublist (recorded (cloak app)) (shown (cloak app)) ->
      sublist (recorded (cloak (outcome_app (loop_body input app))))
              (shown (cloak (outcome_app (loop_body input app))))) /\
  (forall inputs camera g now opens c d,
      let app :=
        fst (main_loop inputs
               {| cloak := Cloak_init camera g now opens;
                  fps_counter := c; disk := d |}) in
      sublist (recorded (cloak app)) (shown (cloak app))).
Proof.
  split.
  - intros input app Hinv Hsub. now apply loop_body_frame.
  - intros inputs camera g now opens c d. cbn zeta.
    apply main_loop_frame; cbn [cloak];
      [apply session_inv_init|apply sublist_nil].
Qed.

End LoopTheorems.

Section LoopExits.

Context {ops : ImageOps} {fl : FloatOps} {hud : HudOps}.

Lemma handle_key_cap (input : TickInput) (key : Z) (app : App) :
  (length (cap (cloak (outcome_app (handle_key input key app))))
   <= length (cap (cloak app)))%nat.
Proof.
  unfold handle_key.
  destruct (key_in key [113; 81; 27]); [cbn [outcome_app]; lia|].
  destruct (key_in key [98; 66]).
  { pose proof (capture_frames_frame (cloak app) 30) as Hf. cbn zeta in Hf.
    destruct (capture_frames (cloak app) 30) as [st' frames].
    cbn [fst] in Hf.
    destruct (stackable frames); cbn [outcome_app with_cloak cloak].
    - now destruct (capture_background_frame (cloak app) 30)
        as (_ & _ & _ & _ & _ & H).
    - now destruct Hf as (_ & _ & _ & _ & _ & _ & H). }
  destruct (key_in key [114; 82]).
  { cbn [outcome_app with_cloak cloak]. apply toggle_recording_cap. }
  destruct (key_in key [99; 67]).
  { destruct (cycle_color_step (cloak app)) as (st' & E & _ & _ & C & _).
    rewrite E. cbn [outcome_app with_cloak cloak]. rewrite C. lia. }
  destruct (key_in key [116; 84]);
    [destruct (toggle_raises _ _); cbn; lia|].
  destruct (key_in key [115; 83]).
  { destruct (get_hsv_range_raises _ _); [cbn [outcome_app]; lia|].
    destruct (save_settings_lines (hsv_tuner (cloak app)) (gui (cloak app))
                (now_iso input) (disk app) "custom_hsv.json")
      as [lines [El Hl]].
    destruct (save_settings _ _ _ _ _) as [[ok d] lines'].
    cbn [snd] in El. subst lines'. cbn [outcome_app cloak].
    destruct Hl as [-> | [line ->]]; cbn; lia. }
  destruct (key =? 32); cbn; lia.
Qed.

Lemma draw_hud_total (st : Cloak) (c : FPSCounter) (frame : Frame) :
  (current_color_index st < 4)%nat ->
  exists out, draw_hud st c frame = Ok out.
Proof.
  intros Hi. unfold draw_hud, hud_texts.
  destruct (preset_lookup _ Hi) as [name [info [Hn _]]].
  rewrite Hn. cbn [bind]. eexists. reflexivity.
Qed.

(** X14. A resolution change ends the session.  In a state that satisfies
    the session invariant, when a frame is read while a plate of other
    dimensions is held, and the selected range can be obtained, the pass
    ends in the OpenCV size error.  The error is raised before anything is
    shown, recorded or dispatched to a key handler: of the session only the
    camera has advanced.  The loop then stops whatever inputs follow, and
    the handler of [run] reports the error. *)
Theorem loop_body_mismatch_ends_session (input : TickInput) (app : App)
    (frame plate : Frame) (rest : list (option Frame)) :
  session_inv (cloak app) ->
  cap (cloak app) = Some frame :: rest ->
  background (cloak app) = Some plate ->
  shape plate <> shape frame ->
  get_hsv_range_raises (hsv_tuner (cloak app)) (gui (cloak app)) = false ->
  let app' :=
    {| cloak := set_cap (cloak app) rest;
       fps_counter := update (fps_counter app) (perf_counter input);
       disk := disk app |} in
  loop_body input app = Crash app' (Pipeline CvError) /\
  forall more,
    main_loop (input :: more) app =
    (with_cloak app'
       (print (set_cap (cloak app) rest)
          ("❌ An error occurred: " ++ error_text (Pipeline CvError))),
     Returned).
Proof.
  intros (Hi & _) Hc Hb Hne Hg. cbn zeta.
  assert (E : loop_body input app =
              Crash {| cloak := set_cap (cloak app) rest;
                       fps_counter := update (fps_counter app)
                                             (perf_counter input);
                       disk := disk app |} (Pipeline CvError)).
  { unfold loop_body, cap_read. rewrite Hc.
    cbn [set_cap background hsv_tuner gui]. rewrite Hg, andb_false_r.
    destruct (effect_dimensions (set_cap (cloak app) rest) (flip1 frame)
                plate Hb Hi) as [_ Hdiff].
    rewrite Hdiff by now rewrite shape_flip1.
    reflexivity. }
  split; [exact E|]. intros more. cbn [main_loop]. rewrite E. reflexivity.
Qed.

Lemma loop_body_consumes (input : TickInput) (app a : App) :
  loop_body input app = Next a ->
  (length (cap (cloak a)) < length (cap (cloak app)))%nat.
Proof.
  unfold loop_body, cap_read.
  destruct (cap (cloak app)) as [|[frame|] rest];
    [discriminate| |discriminate].
  destruct (andb _ _); [discriminate|].
  destruct (apply_invisibility_effect _ _) as [processed|e]; [|discriminate].
  cbn [fps_counter].
  destruct (draw_hud _ _ _) as [drawn|e]; [|discriminate].
  intros H.
  pose proof (handle_key_cap input (Z.land (waitKey input) 255)
                (with_cloak
                   {| cloak := set_cap (cloak app) rest;
                      fps_counter := update (fps_counter app)
                                            (perf_counter input);
                      disk := disk app |}
                   (record_frame (imshow (set_cap (cloak app) rest) drawn)
                                 drawn))) as Hk.
  rewrite H in Hk. cbn [outcome_app with_cloak cloak] in Hk.
  assert (Hr : cap (record_frame (imshow (set_cap (cloak app) rest) drawn)
                                 drawn) = rest).
  { unfold record_frame. cbn [imshow is_recording video_writer set_cap].
    destruct (is_recording (cloak app)); [|reflexivity].
    now destruct (video_writer (cloak app)). }
  rewrite Hr in Hk. cbn [length]. lia.
Qed.

Lemma main_loop_returns (inputs : list TickInput) :
  forall app,
    (length (cap (cloak app)) < length inputs)%nat ->
    snd (main_loop inputs app) = Returned.
Proof.
  induction inputs as [|input inputs IH]; intros app Hlen;
    [cbn in Hlen; lia|].
  cbn [main_loop].
  destruct (loop_body input app) as [a|a|a e] eqn:E; [|reflexivity..].
  apply IH. apply loop_body_consumes in E. cbn [length] in Hlen. lia.
Qed.

(** X15. Every pass of the loop that does not end it takes at least one
    read from the camera.  So when the camera has fewer reads left than
    there are passes to run, [run] returns, and it returns having released
    the camera and destroyed every window, with the cleanup message printed
    last. *)
Theorem run_returns_and_cleans_up (inputs : list TickInput) (app : App) :
  (length (cap (cloak app)) < length inputs)%nat ->
  snd (run inputs app) = Returned /\
  cap (cloak (fst (run inputs app))) = [] /\
  gui (cloak (fst (run inputs app))) = [] /\
  hd "" (console (cloak (fst (run inputs app)))) = "✅ Cleanup complete".
Proof.
  intros Hlen. unfold run.
  set (app0 := with_cloak app (fold_left print banner (cloak app))).
  assert (H0 : (length (cap (cloak app0)) < length inputs)%nat) by exact Hlen.
  pose proof (main_loop_returns inputs app0 H0) as Hr.
  destruct (main_loop inputs app0) as [a e]. cbn [snd] in Hr. subst e.
  cbn [fst snd with_cloak cloak]. unfold cleanup.
  split; [reflexivity|].
  destruct (is_recording _); [destruct (video_writer _)|]; repeat split.
Qed.

End LoopExits.

(* ================================================================== *)
(** * The further properties at concrete inputs *)

Example fps_counter_sample :
  frame_times
    (fold_left (@update sample_float) [3%Q; 6%Q; 10%Q]
       (@update sample_float (@FPSCounter_init sample_float 2) 1%Q))
  = [(6 - 3)%Q; (10 - 6)%Q].
Proof. reflexivity. Qed.

(** Pressing B in front of a camera that changes its resolution during the
    capture raises after both loops: the reads are spent and the plate held
    before is kept. *)
Example handle_key_capture_unstackable :
  exists app',
    @handle_key speck_ops sample_float sample_hud idle_input 98
      (sample_app resizing_session) = Crash app' ValueError /\
    cap (cloak app') = [] /\
    background (cloak app') = Some sample_plate.
Proof. eexists. vm_compute. repeat split. Qed.

(** The third press of T switches the tuner on without a window; the
    fourth, on a back end that raises, fails to destroy it and leaves the
    tuner off. *)
Example handle_key_toggle_windowless :
  exists app',
    @handle_key speck_ops sample_float sample_hud idle_input 116
      (sample_app windowless_session) = Crash app' HighGuiError /\
    is_active (hsv_tuner (cloak app')) = false.
Proof. eexists. vm_compute. split; reflexivity. Qed.

(** Pressing S while the sliders are gone raises before anything is
    written. *)
Example handle_key_save_windowless :
  @handle_key speck_ops sample_float sample_hud idle_input 115
    (sample_app windowless_session)
  = Crash (sample_app windowless_session) HighGuiError.
Proof. reflexivity. Qed.

(** A pass over a plate of other dimensions ends in the size error. *)
Example loop_body_mismatch :
  exists app',
    @loop_body speck_ops sample_float sample_hud idle_input
      (sample_app mismatched_session) = Crash app' (Pipeline CvError).
Proof. eexists. vm_compute. reflexivity. Qed.

Lemma cycle_color_period_witness :
  exists st4,
    (st1 <- cycle_color (sample_session []) ;; st2 <- cycle_color st1 ;;
     st3 <- cycle_color st2 ;; cycle_color st3) = Ok st4 /\
    current_color_index st4 = current_color_index (sample_session []) /\
    create_color_mask st4 sample_hsv
    = create_color_mask (sample_session []) sample_hsv.
Proof.
  apply (proj2 cycle_color_period (sample_session []) sample_hsv).
  apply Nat.ltb_lt. reflexivity.
Defined.


Lemma refine_mask_grows_by_one_witness :
  exists y' x',
    Z.abs (y' - 0) <= 1 /\ Z.abs (x' - 0) <= 1 /\
    in_shape block_mask y' x' = true /\
    member (get 0 block_mask y' x') = true.
Proof.
  apply (proj1 (@refine_mask_grows_by_one speck_ops block_mask eq_refl) 0 0).
  vm_compute. reflexivity.
Defined.


Lemma toggle_recording_start_stop_witness :
  is_recording (toggle_recording (sample_session [Some sample_frame])) = true /\
  is_recording
    (toggle_recording
       (toggle_recording (sample_session [None; Some sample_frame]))) = true.
Proof.
  split.
  - apply (proj1 toggle_recording_start_stop
             (sample_session [Some sample_frame]) sample_frame []);
      reflexivity.
  - apply (proj2 (proj2 toggle_recording_start_stop)
             (sample_session [None; Some sample_frame]) sample_frame []);
      reflexivity.
Defined.

Lemma tuner_window_created_once_witness :
  get_hsv_range (fst (toggle HSVTuner_init [])) (snd (toggle HSVTuner_init []))
  = Some ((0, 120, 70), (10, 255, 255)).
Proof.
  destruct (tuner_window_created_once [] eq_refl) as [(_ & _ & H) _].
  exact H.
Defined.

Lemma save_settings_spec_witness :
  fst (fst (save_settings (hsv_tuner tuning_session) (gui tuning_session)
              "2024-01-01T12:00:00" empty_disk "custom_hsv.json")) = true /\
  assoc (files
           (snd (fst (save_settings (hsv_tuner tuning_session)
                        (gui tuning_session) "2024-01-01T12:00:00" full_disk
                        "custom_hsv.json"))))
        "custom_hsv.json" = Some Partial.
Proof.
  split.
  - apply (proj1 (proj1 (save_settings_spec (hsv_tuner tuning_session)
                           (gui tuning_session) "2024-01-01T12:00:00"
                           empty_disk "custom_hsv.json"
                           (fun _ _ => eq_refl)))).
    repeat split.
  - destruct (proj1 (proj2 (proj2 (proj2
                (save_settings_spec (hsv_tuner tuning_session)
                   (gui tuning_session) "2024-01-01T12:00:00" full_disk
                   "custom_hsv.json" (fun _ _ => eq_refl)))))
                "[Errno 28] No space left on device"
                eq_refl eq_refl eq_refl eq_refl) as (_ & _ & H).
    exact H.
Defined.


Lemma main_loop_invariant_witness :
  session_inv
    (cloak (outcome_app
              (@loop_body speck_ops sample_float sample_hud idle_input
                 (sample_app (sample_session [Some sample_frame]))))).
Proof.
  apply (proj1 (proj2 (@main_loop_invariant speck_ops sample_float
                         sample_hud))).
  apply (proj1 (@main_loop_invariant speck_ops sample_float sample_hud)).
Defined.

Lemma recording_within_display_witness :
  sublist
    (recorded
       (cloak (outcome_app
                 (@loop_body speck_ops sample_float sample_hud idle_input
                    (sample_app (sample_session [Some sample_frame]))))))
    (shown
       (cloak (outcome_app
                 (@loop_body speck_ops sample_float sample_hud idle_input
                    (sample_app (sample_session [Some sample_frame])))))).
Proof.
  apply (proj1 (@recording_within_display speck_ops sample_float sample_hud)).
  - unfold session_inv. cbn. repeat split; try discriminate. lia.
  - apply sublist_nil.
Defined.

Lemma loop_body_mismatch_ends_session_witness :
  @loop_body speck_ops sample_float sample_hud idle_input
    (sample_app mismatched_session)
  = Crash
      {| cloak := set_cap mismatched_session [];
         fps_counter :=
           update (fps_counter (sample_app mismatched_session))
                  (perf_counter idle_input);
         disk := empty_disk |}
      (Pipeline CvError).
Proof.
  apply (proj1 (@loop_body_mismatch_ends_session speck_ops sample_float
                  sample_hud idle_input (sample_app mismatched_session)
                  sample_frame [[(1, 2, 3)]] []
                  (session_inv_init _ _ _ _) eq_refl eq_refl
                  (fun H : shape [[(1, 2, 3)]] = shape sample_frame =>
                     eq_ind (shape [[(1, 2, 3)]])
                            (fun s => match s with
                                      | (1%nat, _) => True
                                      | _ => False
                                      end)
                            I _ H)
                  eq_refl)).
Defined.

Lemma run_returns_and_cleans_up_witness :
  snd (@run speck_ops sample_float sample_hud [idle_input; idle_input]
         (sample_app (sample_session [Some sample_frame]))) = Returned /\
  cap (cloak (fst (@run speck_ops sample_float sample_hud
                     [idle_input; idle_input]
                     (sample_app (sample_session [Some sample_frame])))))
  = [].
Proof.
  destruct (@run_returns_and_cleans_up speck_ops sample_float sample_hud
              [idle_input; idle_input]
              (sample_app (sample_session [Some sample_frame])))
    as (H1 & H2 & _).
  - cbn. lia.
  - split; [exact H1|exact H2].
Defined.
